(** * AICallMetrics demo uploader: validator, session client, upload
    orchestrator and development proxy.

    Shallow embedding of
      - [src/utils/validation.ts]            (module [Validation]),
      - [src/api/client.ts] and its traced variant (module [Client]),
      - the [UploadForm] component's [startSimpleMultipart] (module [Upload]),
      - the [/proxy] middleware of [vite.config.ts] (module [Proxy]),
      - the handlers of the [UploadForm] component (module [Form]) and
        [handleLogin] of [src/ui/App.tsx] (module [App]),
    followed by the properties established about them. *)

From stdpp Require Import gmap strings list pretty sorting.
From Stdlib Require Import ZArith Ascii Lia.

Set Warnings "-register-all".

Open Scope string_scope.
Open Scope Z_scope.

(** ** JavaScript values as the code sees them *)

Module Js.

(** A value produced by [JSON.parse].  Numbers are the integral ones
    (status codes, sizes, counters); an object is the list of its own
    properties. *)
Inductive JsVal : Type :=
| JNull
| JBool (b : bool)
| JNum (n : Z)
| JStr (s : string)
| JArr (items : list JsVal)
| JObj (fields : list (string * JsVal)).

(** [None] plays the role of [undefined]. *)
Definition JsOpt : Type := option JsVal.

(** ToBoolean. *)
Definition truthy (v : JsVal) : bool :=
  match v with
  | JNull => false
  | JBool b => b
  | JNum n => negb (n =? 0)
  | JStr s => negb (String.eqb s "")
  | JArr _ | JObj _ => true
  end.

Definition truthy_opt (o : JsOpt) : bool :=
  match o with Some v => truthy v | None => false end.

(** ToBoolean of a [string | null | undefined]. *)
Definition truthy_str (o : option string) : bool :=
  match o with Some s => negb (String.eqb s "") | None => false end.

Fixpoint assoc (k : string) (fields : list (string * JsVal)) : JsOpt :=
  match fields with
  | [] => None
  | (k', v) :: rest => if String.eqb k k' then Some v else assoc k rest
  end.

(** [v.k] for a value [v] that is neither [null] nor [undefined] and a
    property name [k] that no prototype defines. *)
Definition get_prop (v : JsVal) (k : string) : JsOpt :=
  match v with
  | JObj fields => assoc k fields
  | _ => None
  end.

(** [o?.k] *)
Definition get_prop_opt (o : JsOpt) (k : string) : JsOpt :=
  match o with
  | None | Some JNull => None
  | Some v => get_prop v k
  end.

(** [obj.k = v] on an object: overwrite in place or add at the end. *)
Fixpoint set_field (k : string) (v : JsVal) (fields : list (string * JsVal))
  : list (string * JsVal) :=
  match fields with
  | [] => [(k, v)]
  | (k', v') :: rest =>
      if String.eqb k k' then (k, v) :: rest else (k', v') :: set_field k v rest
  end.

Definition set_prop (o : JsVal) (k : string) (v : JsVal) : JsVal :=
  match o with
  | JObj fields => JObj (set_field k v fields)
  | _ => o
  end.

(** ToString. *)
Fixpoint to_js_string (v : JsVal) : string :=
  match v with
  | JNull => "null"
  | JBool true => "true"
  | JBool false => "false"
  | JNum n => pretty n
  | JStr s => s
  | JArr items =>
      (fix join (l : list JsVal) : string :=
         match l with
         | [] => ""
         | x :: rest =>
             let sx := match x with JNull => "" | _ => to_js_string x end in
             match rest with
             | [] => sx
             | _ :: _ => sx +:+ "," +:+ join rest
             end
         end) items
  | JObj _ => "[object Object]"
  end.

(** [String(x)] for a possibly undefined [x]. *)
Definition String_of (o : JsOpt) : string :=
  match o with Some v => to_js_string v | None => "undefined" end.

(** [x === false] *)
Definition strict_eq_false (o : JsOpt) : bool :=
  match o with Some (JBool false) => true | _ => false end.

(** [a || b] *)
Definition or_else (a : JsOpt) (b : JsOpt) : JsOpt :=
  if truthy_opt a then a else b.

(** An object literal; properties whose value is [undefined] are the ones
    [JSON.stringify] leaves out. *)
Definition obj (fields : list (string * JsOpt)) : JsVal :=
  JObj (omap (fun '(k, o) => match o with Some v => Some (k, v) | None => None end) fields).

(** ASCII lower-casing, [String.prototype.toLowerCase] on header names. *)
Definition lower_ascii (c : ascii) : ascii :=
  let n := nat_of_ascii c in
  if (Nat.leb 65 n && Nat.leb n 90)%bool then ascii_of_nat (n + 32) else c.

Fixpoint toLowerCase (s : string) : string :=
  match s with
  | EmptyString => EmptyString
  | String c rest => String (lower_ascii c) (toLowerCase rest)
  end.

Definition upper_ascii (c : ascii) : ascii :=
  let n := nat_of_ascii c in
  if (Nat.leb 97 n && Nat.leb n 122)%bool then ascii_of_nat (n - 32) else c.

Fixpoint toUpperCase (s : string) : string :=
  match s with
  | EmptyString => EmptyString
  | String c rest => String (upper_ascii c) (toUpperCase rest)
  end.

(** [s.includes(sub)] *)
Fixpoint includes (sub s : string) : bool :=
  String.prefix sub s ||
  match s with
  | EmptyString => false
  | String _ rest => includes sub rest
  end.

(** The one-character string holding a double quote. *)
Definition dquote : string := String (ascii_of_nat 34) EmptyString.

(** A JavaScript string is held as the bytes of its UTF-8 encoding;
    [bytes l] is the string of the bytes [l]. *)
Definition bytes (l : list nat) : string :=
  foldr (λ n s, String (ascii_of_nat n) s) EmptyString l.

(** [Array.prototype.join] *)
Fixpoint join (sep : string) (l : list string) : string :=
  match l with
  | [] => ""
  | [x] => x
  | x :: rest => x +:+ sep +:+ join sep rest
  end.

(** [Math.ceil(a / b)] for integers [a] and [b > 0].  Within the safe
    integer range the quotient of two integers is never rounded onto an
    integer it does not equal, so the ceiling of the double equals the
    integer ceiling. *)
Definition ceil_div (a b : Z) : Z := - ((- a) / b).

End Js.

Import Js.

(** ** [src/utils/validation.ts] *)

Module Validation.

Definition MAX_SIZE_BYTES : Z := 5 * 1024 * 1024.

Definition ACCEPTED_TYPES : gset string :=
  list_to_set
    ["audio/mpeg"; "audio/wav"; "audio/x-wav"; "audio/wave"; "audio/x-pn-wav";
     "audio/mp4"; "audio/x-m4a"; "audio/aac"; "audio/ogg"; "audio/flac";
     "audio/webm"].

Record ValidationResult : Type := mkValidation {
  valid : bool;
  error : option string
}.

Definition validateAudioFile (name : string) (size : Z) (type : string)
  : ValidationResult :=
  if size >? MAX_SIZE_BYTES then
    {| valid := false; error := Some "File exceeds 5MB limit" |}
  else if negb (bool_decide (type ∈ ACCEPTED_TYPES)) then
    {| valid := false; error := Some "Unsupported file type" |}
  else
    {| valid := true; error := None |}.

End Validation.

(** ** The platform: [fetch], [Date.now], [encodeURIComponent] *)

Module Net.

(** What is handed to [fetch] as [body]. *)
Inductive Body : Type :=
| NoBody
| JsonBody (v : JsVal)          (* JSON.stringify(v) *)
| FileSlice (lo hi : Z)         (* bytes [lo, hi) of the selected file *)
| RawBody (bytes : string).     (* a Buffer *)

Record Request : Type := mkRequest {
  rq_url : string;
  rq_method : string;
  rq_headers : gmap string string;
  rq_body : Body;
  rq_credentials : option string;
  rq_redirect : option string
}.

(** A [Response]: [rs_json] is what [JSON.parse] makes of the body text,
    [None] when it throws. *)
Record Response : Type := mkResponse {
  rs_status : Z;
  rs_statusText : string;
  rs_headers : list (string * string);
  rs_text : string;
  rs_json : option JsVal
}.

(** [res.ok] *)
Definition rs_ok (r : Response) : bool :=
  (200 <=? rs_status r) && (rs_status r <=? 299).

(** [res.headers.get(name)]: names compare case-insensitively, repeated
    headers are combined. *)
Definition headers_get (name : string) (hs : list (string * string)) : option string :=
  match filter (λ kv, toLowerCase kv.1 = toLowerCase name) hs with
  | [] => None
  | found => Some (join ", " (found.*2))
  end.

(** [res.headers.forEach] and the other iterations over a [Headers]
    object: the names in lower case and sorted, each once with its combined
    value, except [set-cookie], whose values come one by one in the order
    received. *)
Definition headers_names (hs : list (string * string)) : list string :=
  merge_sort String.le (remove_dups ((λ kv, toLowerCase kv.1) <$> hs)).

Definition headers_of (hs : list (string * string)) (name : string)
  : list (string * string) :=
  if String.eqb name "set-cookie"
  then (λ kv, (name, kv.2)) <$> filter (λ kv, toLowerCase kv.1 = name) hs
  else [(name, default "" (headers_get name hs))].

Definition headers_entries (hs : list (string * string)) : list (string * string) :=
  headers_names hs ≫= headers_of hs.

(** An [Error] object with the two properties [ApiError] adds. *)
Record JsError : Type := mkError {
  err_name : string;
  err_message : string;
  err_status : option Z;
  err_details : option JsVal
}.

(** [new Error(message)] *)
Definition new_Error (message : string) : JsError :=
  {| err_name := "Error"; err_message := message;
     err_status := None; err_details := None |}.

(** Reading a property of [undefined] or [null]. *)
Definition TypeError_nullish : JsError :=
  {| err_name := "TypeError";
     err_message := "Cannot read properties of undefined";
     err_status := None; err_details := None |}.

Inductive FetchOutcome : Type :=
| Rejected (e : JsError)
| Resolved (r : Response).

(** The world outside the program: it answers every [fetch] and tells the
    time. *)
Class Network (World : Type) : Type := {
  net_fetch : Request → World → FetchOutcome * World;
  date_now : World → Z
}.

(** A line handed to [pushLog]: the label and the values after it. *)
Record LogLine : Type := mkLog {
  ll_label : string;
  ll_parts : list JsVal
}.

Record Run (World : Type) : Type := mkRun {
  world : World;
  trace : list Request;      (* the calls to [fetch], oldest first *)
  logs : list LogLine        (* the component's [logs] state *)
}.
Arguments mkRun {World}.
Arguments world {World}.
Arguments trace {World}.
Arguments logs {World}.

Inductive Outcome (A : Type) : Type :=
| Ok (a : A)
| Throw (e : JsError).
Arguments Ok {A}.
Arguments Throw {A}.

(** Sequential code that calls [fetch], logs and may throw. *)
Definition M (World A : Type) : Type := Run World → Outcome A * Run World.

Section Monad.
Context {World : Type} `{!Network World}.

Definition ret {A} (a : A) : M World A := λ st, (Ok a, st).

Definition bind {A B} (m : M World A) (k : A → M World B) : M World B :=
  λ st, match m st with
        | (Ok a, st') => k a st'
        | (Throw e, st') => (Throw e, st')
        end.

Definition throw {A} (e : JsError) : M World A := λ st, (Throw e, st).

(** [try { m } catch (e) { h(e) }] *)
Definition try_catch {A} (m : M World A) (h : JsError → M World A) : M World A :=
  λ st, match m st with
        | (Ok a, st') => (Ok a, st')
        | (Throw e, st') => h e st'
        end.

(** [await fetch(url, init)] *)
Definition fetch (rq : Request) : M World Response :=
  λ st,
    let '(o, w') := net_fetch rq (world st) in
    let st' := {| world := w'; trace := (trace st ++ [rq])%list; logs := logs st |} in
    match o with
    | Resolved r => (Ok r, st')
    | Rejected e => (Throw e, st')
    end.

(** The calls to [fetch] a computation adds to the trace. *)
Definition sent {A} (m : M World A) (st : Run World) : list Request :=
  drop (length (trace st)) (trace (m st).2).

(** [Date.now()] *)
Definition now : M World Z := λ st, (Ok (date_now (world st)), st).

(** [pushLog(label, ...parts)]: the line is appended and the list is cut
    to its last 300 lines.  The time stamp in front of each line is not
    recorded. *)
Definition pushLog (label : string) (parts : list JsVal) : M World unit :=
  λ st,
    let next := (logs st ++ [{| ll_label := label; ll_parts := parts |}])%list in
    (Ok (), {| world := world st; trace := trace st;
               logs := drop (length next - 300)%nat next |}).

End Monad.

Module Notations.
  Notation "'let*' x := m 'in' k" := (bind m (λ x, k))
    (at level 10, x name, m at level 100, k at level 200).
  Notation "m ;;; k" := (bind m (λ _, k))
    (at level 100, right associativity).
End Notations.

(** The platform's [URL] class: the parts of a parsed URL the code reads. *)
Record URL : Type := mkURL {
  u_href : string;
  u_protocol : string;
  u_host : string;
  u_origin : string;
  u_pathname : string;
  u_searchParams : list (string * string)
}.

(** [new URL(input, base)]; [None] when the constructor throws. *)
Class UrlApi : Type := {
  new_URL : string → option string → option URL
}.

(** [url.searchParams.get(name)] *)
Definition searchParams_get (name : string) (u : URL) : option string :=
  (list_find (λ kv, kv.1 = name) (u_searchParams u)) ≫= (λ r, Some r.2.2).

(** [encodeURIComponent], byte by byte on the UTF-8 encoding. *)
Definition unreserved (c : ascii) : bool :=
  let n := nat_of_ascii c in
  ((Nat.leb 48 n && Nat.leb n 57) || (Nat.leb 65 n && Nat.leb n 90)
   || (Nat.leb 97 n && Nat.leb n 122)
   || bool_decide (c ∈ ["-"; "_"; "."; "!"; "~"; "*"; "'"; "("; ")"]%char))%bool.

Definition hex_digit (n : nat) : ascii :=
  match String.get n "0123456789ABCDEF" with
  | Some c => c
  | None => "0"%char
  end.

Fixpoint encodeURIComponent (s : string) : string :=
  match s with
  | EmptyString => EmptyString
  | String c rest =>
      if unreserved c then String c (encodeURIComponent rest)
      else
        let n := nat_of_ascii c in
        String "%" (String (hex_digit (n / 16)) (String (hex_digit (n mod 16))
          (encodeURIComponent rest)))
  end.

(** [s.replace(/c$/, '')]: drop one trailing [c]. *)
Fixpoint strip_trailing (c : ascii) (s : string) : string :=
  match s with
  | EmptyString => EmptyString
  | String c' EmptyString => if Ascii.eqb c c' then EmptyString else s
  | String c' rest => String c' (strip_trailing c rest)
  end.

End Net.

Import Net Net.Notations.

(** ** [src/api/client.ts] *)

Module Client.

Record ApiClientOptions : Type := mkOptions {
  opt_baseUrl : string;
  opt_token : option string;            (* [None]: null or undefined *)
  opt_includeCredentials : option bool
}.

Record ApiClient : Type := mkClient {
  baseUrl : string;
  token : option string;
  includeCredentials : bool
}.

Definition new_ApiClient (options : ApiClientOptions) : ApiClient :=
  {| baseUrl := strip_trailing "/" (opt_baseUrl options);
     token := opt_token options;
     includeCredentials := default true (opt_includeCredentials options) |}.

Definition setToken (c : ApiClient) (t : option string) : ApiClient :=
  {| baseUrl := baseUrl c; token := t; includeCredentials := includeCredentials c |}.

Definition createApiClient (base : string) (t : option string) : ApiClient :=
  new_ApiClient {| opt_baseUrl := base; opt_token := t;
                   opt_includeCredentials := None |}.

(** [{ ...headers, ...(extra || {}) }]: the later spread wins. *)
Definition buildHeaders (c : ApiClient) (extra : option (gmap string string))
  : gmap string string :=
  let headers : gmap string string :=
    match token c with
    | Some t => if truthy_str (Some t) then {[ "Authorization" := "Bearer " +:+ t ]} else ∅
    | None => ∅
    end in
  default ∅ extra ∪ headers.

Record PostOptions : Type := mkPostOptions {
  forceJsonContentType : option bool
}.

(** The argument of the one [fetch] call of [postJson]. *)
Definition postJson_request (redirect : option string) (c : ApiClient)
    (path : string) (body : JsVal) (opts : option PostOptions) : Request :=
  let headers :=
    buildHeaders c
      (if default false (opts ≫= forceJsonContentType)
       then Some {[ "Content-Type" := "application/json" ]} else None) in
  let targetUrl := baseUrl c +:+ path in
  let proxyUrl := "/proxy?url=" +:+ encodeURIComponent targetUrl in
  {| rq_url := proxyUrl; rq_method := "POST"; rq_headers := headers;
     rq_body := JsonBody body; rq_credentials := Some "include";
     rq_redirect := redirect |}.

(** [data?.error || data?.message || `Request failed (${res.status})`] *)
Definition failure_message (data : JsVal) (status : Z) : string :=
  String_of
    (or_else (or_else (get_prop_opt (Some data) "error")
                      (get_prop_opt (Some data) "message"))
             (Some (JStr ("Request failed (" +:+ pretty status +:+ ")")))).

(** [!res.ok || (data && data.success === false)] *)
Definition is_failure (res : Response) (data : JsVal) : bool :=
  negb (rs_ok res)
  || (truthy data && strict_eq_false (get_prop data "success")).

Section PostJson.
Context {World : Type} `{!Network World}.

Definition postJson_with (redirect : option string) (c : ApiClient)
    (path : string) (body : JsVal) (opts : option PostOptions) : M World JsVal :=
  let* res := fetch (postJson_request redirect c path body opts) in
  (* let data = null; try { data = await res.json(); } catch { } *)
  let data := default JNull (rs_json res) in
  if is_failure res data then
    throw {| err_name := "Error";
             err_message := failure_message data (rs_status res);
             err_status := Some (rs_status res);
             err_details := Some data |}
  else ret data.

(** [src/api/client.ts] *)
Definition postJson := postJson_with None.

(** The traced variant: [redirect: 'manual'], console output around the
    same steps, and a [catch] that logs and rethrows. *)
Definition postJson_traced (c : ApiClient) (path : string) (body : JsVal)
    (opts : option PostOptions) : M World JsVal :=
  try_catch (postJson_with (Some "manual") c path body opts) (λ err, throw err).

End PostJson.

End Client.

(** ** The [UploadForm] component *)

Module Upload.

Definition MAX_SIZE : Z := 5 * 1024 * 1024.

Definition ACCEPTED : list string :=
  ["audio/mpeg"; "audio/wav"; "audio/x-wav"; "audio/wave"; "audio/x-pn-wav";
   "audio/mp4"; "audio/x-m4a"; "audio/aac"; "audio/ogg"; "audio/flac";
   "audio/webm"].

(** What the code reads of a [File]; its bytes are only ever sliced. *)
Record File : Type := mkFile {
  f_name : string;
  f_size : Z;
  f_type : string
}.

Record UploadFormProps : Type := mkProps {
  domain : string;
  token : option string
}.

Definition validateFile (f : File) : option string :=
  if f_size f >? MAX_SIZE then Some "File exceeds 5MB limit"
  else if negb (bool_decide (f_type f ∈ ACCEPTED)) then Some "Unsupported file type"
  else None.

Definition headers_obj (h : gmap string string) : JsVal :=
  JObj ((λ kv, (kv.1, JStr kv.2)) <$> map_to_list h).

Definition maskHeaders (h : option (gmap string string)) : gmap string string :=
  match h with
  | None => ∅
  | Some h =>
      map_imap (λ k v, Some (if bool_decide (toLowerCase k = "authorization")
                             then "Bearer ****" else v)) h
  end.

(** [s.length > n ? `${s.slice(0, n)}…(+${s.length - n})` : s], [n = 1000] *)
Definition truncate (s : string) : string :=
  let n := 1000%nat in
  if (n <? String.length s)%nat
  then String.substring 0 n s +:+ "…(+" +:+ pretty (String.length s - n)%nat +:+ ")"
  else s.

Definition maskUrl `{!UrlApi} (u : string) : string :=
  match new_URL u None with
  | Some url => u_protocol url +:+ "//" +:+ u_host url +:+ u_pathname url
  | None => u
  end.

Definition CHUNK_SIZE : Z := 5 * 1024 * 1024.

(** [fileBuffer.slice(begin, end)] for [0 ≤ begin]: both ends are clamped
    to the length of the buffer. *)
Definition slice (f : File) (begin end_ : Z) : Body :=
  FileSlice (Z.min begin (f_size f)) (Z.min end_ (f_size f)).

Definition byteLength (b : Body) : Z :=
  match b with
  | FileSlice lo hi => Z.max (hi - lo) 0
  | RawBody bytes => Z.of_nat (String.length bytes)
  | _ => 0
  end.

(** [fileBuffer.slice(i * CHUNK_SIZE, (i + 1) * CHUNK_SIZE)] *)
Definition chunk_of (f : File) (i : Z) : Body :=
  slice f (i * CHUNK_SIZE) ((i + 1) * CHUNK_SIZE).

Record PartResult : Type := mkPart {
  ETag : string;
  PartNumber : Z
}.

Definition part_json (p : PartResult) : JsVal :=
  JObj [("ETag", JStr (ETag p)); ("PartNumber", JNum (PartNumber p))].

(** [x[i]] for a value [x] that is neither [null] nor [undefined]. *)
Definition index (x : JsVal) (i : Z) : JsOpt :=
  match x with
  | JArr items => items !! Z.to_nat i
  | JStr s => (λ c, JStr (String c EmptyString)) <$> String.get (Z.to_nat i) s
  | JObj fields => assoc (pretty i) fields
  | _ => None
  end.

(** [try { d = JSON.parse(text) } catch { d = { raw: text } }] *)
Definition parse_or_raw (res : Response) : JsVal :=
  match rs_json res with
  | Some v => v
  | None => JObj [("raw", JStr (rs_text res))]
  end.

Definition response_log (res : Response) : JsVal :=
  obj [("status", Some (JNum (rs_status res)));
       ("ok", Some (JBool (rs_ok res)));
       ("content-type", Some (from_option JStr JNull (headers_get "content-type" (rs_headers res))));
       ("content-encoding", Some (from_option JStr JNull (headers_get "content-encoding" (rs_headers res))));
       ("body", Some (JStr (truncate (rs_text res))))].

(** Reading a request off the trace: the [action] of its JSON body and
    the [PartNumber]s of its [parts]. *)
Definition action_of (rq : Request) : JsOpt :=
  match rq_body rq with
  | JsonBody b => get_prop b "action"
  | _ => None
  end.

Definition requested_parts (rq : Request) : JsOpt :=
  match rq_body rq with
  | JsonBody b => get_prop b "parts"
  | _ => None
  end.

Definition part_numbers_of (rq : Request) : option (list JsOpt) :=
  match rq_body rq with
  | JsonBody b =>
      match get_prop b "parts" with
      | Some (JArr entries) => Some ((λ e, get_prop e "PartNumber") <$> entries)
      | _ => None
      end
  | _ => None
  end.

Section Component.
Context {World : Type} `{!Network World} `{!UrlApi}.
Context (props : UploadFormProps).

(** [data.k], which throws when [data] is [null]. *)
Definition member (data : JsVal) (k : string) : M World JsOpt :=
  match data with
  | JNull => throw TypeError_nullish
  | _ => ret (get_prop data k)
  end.

(** [data[i]], which throws when [data] is [null] or [undefined]. *)
Definition member_at (data : JsOpt) (i : Z) : M World JsOpt :=
  match data with
  | None | Some JNull => throw TypeError_nullish
  | Some x => ret (index x i)
  end.

Definition authHeaders : option (gmap string string) :=
  match token props with
  | Some t => if truthy_str (Some t) then Some {[ "Authorization" := "Bearer " +:+ t ]} else None
  | None => None
  end.

Definition base : string := strip_trailing "/" (domain props).

(** [`/proxy?url=${encodeURIComponent(`${base}${path}`)}.`.replace(/\.$/, '')] *)
Definition proxied (path : string) : string :=
  strip_trailing "." ("/proxy?url=" +:+ encodeURIComponent (base +:+ path) +:+ ".").

(** The [fetch] init shared by the three [/api/upload-large] calls. *)
Definition post_upload_large (body : JsVal) : Request :=
  {| rq_url := proxied "/api/upload-large"; rq_method := "POST";
     rq_headers := default ∅ authHeaders; rq_body := JsonBody body;
     rq_credentials := Some "include"; rq_redirect := None |}.

Definition masked_auth : JsVal := headers_obj (maskHeaders authHeaders).

(** *** 1. start-upload *)
Definition start_upload_body (f : File) : JsVal :=
  obj [("action", Some (JStr "start-upload"));
       ("fileName", Some (JStr (f_name f)));
       ("contentType", Some (JStr (if negb (String.eqb (f_type f) "") then f_type f
                                   else "application/octet-stream")));
       ("fileSize", Some (JNum (f_size f)))].

Definition phase_start (f : File) : M World (JsOpt * JsOpt) :=
  pushLog "Begin upload"
    [obj [("name", Some (JStr (f_name f))); ("size", Some (JNum (f_size f)));
          ("type", Some (JStr (f_type f)))];
     obj [("base", Some (JStr base))]] ;;;
  let startUrl := proxied "/api/upload-large" in
  pushLog "→ POST start-upload"
    [obj [("url", Some (JStr startUrl)); ("headers", Some masked_auth)]] ;;;
  let* startRes := fetch (post_upload_large (start_upload_body f)) in
  pushLog "← start-upload response" [response_log startRes] ;;;
  let startData := parse_or_raw startRes in
  let* failed :=
    (if negb (rs_ok startRes) then ret true
     else let* success := member startData "success" in
          ret (negb (truthy_opt success))) in
  if failed : bool then
    let* error := member startData "error" in
    throw (new_Error (String_of (or_else error (Some (JStr "Failed to start upload")))))
  else
    let uploadId := get_prop startData "uploadId" in
    let key := get_prop startData "key" in
    pushLog "start-upload ok"
      [obj [("uploadId", uploadId);
            ("key", Some (match key with Some (JStr k) => JStr k | _ => JStr "unknown" end))]] ;;;
    ret (uploadId, key).

(** *** 2. get-upload-urls *)
Definition part_count (f : File) : Z := ceil_div (f_size f) CHUNK_SIZE.

Definition get_urls_body (uploadId key : JsOpt) (parts : Z) : JsVal :=
  obj [("action", Some (JStr "get-upload-urls")); ("key", key);
       ("uploadId", uploadId); ("parts", Some (JNum parts))].

Definition phase_get_urls (uploadId key : JsOpt) (parts : Z) : M World JsVal :=
  let urlsUrl := proxied "/api/upload-large" in
  pushLog "→ POST get-upload-urls"
    [obj [("url", Some (JStr urlsUrl)); ("parts", Some (JNum parts));
          ("headers", Some masked_auth)]] ;;;
  let* urlsRes := fetch (post_upload_large (get_urls_body uploadId key parts)) in
  pushLog "← get-upload-urls response" [response_log urlsRes] ;;;
  let urlsData := parse_or_raw urlsRes in
  let* failed :=
    (if negb (rs_ok urlsRes) then ret true
     else let* success := member urlsData "success" in
          ret (negb (truthy_opt success))) in
  if failed : bool then throw (new_Error "Failed to get upload URLs")
  else ret urlsData.

(** *** The loop over the parts

    [for (let i = 0; i < parts; i++)], with [todo] the number of
    iterations still to run. *)
Definition put_request (partUrl : string) (chunk : Body) : Request :=
  {| rq_url := partUrl; rq_method := "PUT"; rq_headers := ∅; rq_body := chunk;
     rq_credentials := None; rq_redirect := None |}.

(** The body of the loop for index [i]; its result is what is pushed onto
    [uploadedParts]. *)
Definition put_part (i : Z) (parts : Z) (f : File) (urlsData : JsVal)
  : M World PartResult :=
  let chunk := chunk_of f i in
  let* url_i := member_at (get_prop urlsData "urls") i in
  let partUrl := String_of url_i in
  pushLog ("→ PUT part " +:+ pretty (i + 1) +:+ "/" +:+ pretty parts)
    [obj [("to", Some (JStr (maskUrl partUrl)));
          ("bytes", Some (JNum (byteLength chunk)))]] ;;;
  let* putRes := fetch (put_request partUrl chunk) in
  pushLog ("← PUT part " +:+ pretty (i + 1) +:+ " response")
    [obj [("status", Some (JNum (rs_status putRes)));
          ("ok", Some (JBool (rs_ok putRes)));
          ("etag", Some (from_option JStr JNull (headers_get "ETag" (rs_headers putRes))))]] ;;;
  if negb (rs_ok putRes) then
    throw (new_Error ("Chunk " +:+ pretty (i + 1) +:+ " failed"))
  else
    let* etag :=
      (let got := headers_get "ETag" (rs_headers putRes) in
       if truthy_str got then ret (default "" got)
       else let* t := now in
            ret (dquote +:+ "etag-" +:+ pretty (i + 1) +:+ "-" +:+ pretty t +:+ dquote)) in
    ret {| ETag := etag; PartNumber := i + 1 |}.

Fixpoint put_parts (todo : nat) (i : Z) (parts : Z) (f : File) (urlsData : JsVal)
    (uploadedParts : list PartResult) : M World (list PartResult) :=
  match todo with
  | O => ret uploadedParts
  | S todo' =>
      let* part := put_part i parts f urlsData in
      put_parts todo' (i + 1) parts f urlsData (uploadedParts ++ [part])%list
  end.

Definition phase_put_parts (f : File) (parts : Z) (urlsData : JsVal)
  : M World (list PartResult) :=
  put_parts (Z.to_nat parts) 0 parts f urlsData [].

(** *** 3. complete-upload *)
Definition complete_body (f : File) (uploadId key : JsOpt)
    (uploadedParts : list PartResult) : JsVal :=
  obj [("action", Some (JStr "complete-upload"));
       ("key", key);
       ("uploadId", uploadId);
       ("parts", Some (JArr (part_json <$> uploadedParts)));
       ("fileName", Some (JStr (f_name f)));
       ("contentType", Some (JStr (f_type f)));
       ("fileSize", Some (JNum (f_size f)));
       ("customParameters", Some (JArr []));
       ("selectedActionItemTypes", Some (JArr []));
       ("originalContentType", Some (JStr (f_type f)));
       ("audioCompressionUsed", Some (JBool false))].

Definition phase_complete (f : File) (uploadId key : JsOpt)
    (uploadedParts : list PartResult) : M World JsVal :=
  let completeUrl := proxied "/api/upload-large" in
  pushLog "→ POST complete-upload"
    [obj [("url", Some (JStr completeUrl));
          ("parts", Some (JNum (Z.of_nat (length uploadedParts))));
          ("headers", Some masked_auth)]] ;;;
  let* completeRes := fetch (post_upload_large (complete_body f uploadId key uploadedParts)) in
  pushLog "← complete-upload response" [response_log completeRes] ;;;
  let completeData := parse_or_raw completeRes in
  let* failed :=
    (if negb (rs_ok completeRes) then ret true
     else let* success := member completeData "success" in
          ret (negb (truthy_opt success))) in
  if failed : bool then
    let* error := member completeData "error" in
    throw (new_Error (String_of (or_else error (Some (JStr "Failed to complete upload")))))
  else ret completeData.

(** *** The fallback trigger of the analysis *)

(** [completeData?.upload?.id] *)
Definition upload_id (completeData : JsVal) : JsOpt :=
  get_prop_opt (get_prop_opt (Some completeData) "upload") "id".

(** [!completeData.analysisStarted && completeData?.upload?.id] *)
Definition needs_fallback (completeData : JsVal) : bool :=
  negb (truthy_opt (get_prop completeData "analysisStarted"))
  && truthy_opt (upload_id completeData).

Definition analyze_body (id : JsOpt) : JsVal :=
  obj [("uploadIds", Some (JArr (option_list id)));
       ("analysisType", Some (JStr "parameters"));
       ("customParameters", Some (JArr []));
       ("selectedActionItemTypes", Some (JArr []))].

Definition analyze_request (id : JsOpt) : Request :=
  {| rq_url := proxied "/api/analyze"; rq_method := "POST";
     rq_headers := <[ "Content-Type" := "application/json" ]> (default ∅ authHeaders);
     rq_body := JsonBody (analyze_body id);
     rq_credentials := Some "include"; rq_redirect := None |}.

Definition phase_fallback (completeData : JsVal) : M World JsVal :=
  if needs_fallback completeData then
    let id := upload_id completeData in
    try_catch
      (let analyzeUrl := proxied "/api/analyze" in
       pushLog "→ POST analyze (fallback)"
         [obj [("url", Some (JStr analyzeUrl)); ("uploadId", id);
               ("headers", Some (headers_obj (maskHeaders (Some (rq_headers (analyze_request id))))))]] ;;;
       let* analyzeRes := fetch (analyze_request id) in
       pushLog "← analyze response"
         [obj [("status", Some (JNum (rs_status analyzeRes)));
               ("ok", Some (JBool (rs_ok analyzeRes)));
               ("body", Some (JStr (truncate (rs_text analyzeRes))))]] ;;;
       if rs_ok analyzeRes then
         let analyzeJson := parse_or_raw analyzeRes in
         if truthy_opt (get_prop_opt (Some analyzeJson) "success") then
           ret (set_prop
                  (set_prop
                     (set_prop completeData "analysisStarted" (JBool true))
                     "analyses"
                     (default (JArr []) (or_else (get_prop analyzeJson "analyses") (Some (JArr [])))))
                  "message" (JStr "File uploaded and analysis started (fallback trigger)."))
         else ret completeData
       else ret completeData)
      (λ fallbackErr,
         pushLog "Fallback analyze trigger failed" [JStr (err_message fallbackErr)] ;;;
         ret completeData)
  else ret completeData.

(** *** The whole sequence

    [setProgress] only feeds the progress bar and is left out. *)
Definition startSimpleMultipart (f : File) : M World JsVal :=
  let* started := phase_start f in
  let '(uploadId, key) := started in
  let parts := part_count f in
  let* urlsData := phase_get_urls uploadId key parts in
  let* uploadedParts := phase_put_parts f parts urlsData in
  let* completeData := phase_complete f uploadId key uploadedParts in
  phase_fallback completeData.

End Component.

End Upload.

(** ** The [/proxy] middleware of [vite.config.ts] *)

Module Proxy.

(** A header of the incoming message: [string | string[]]. *)
Inductive HeaderValue : Type :=
| HStr (s : string)
| HArr (items : list string).

(** What the middleware reads of the incoming request.  [in_chunks] are the
    ['data'] events of the body stream, [in_error] its ['error'] event. *)
Record Incoming : Type := mkIncoming {
  in_url : option string;
  in_method : option string;
  in_headers : list (string * HeaderValue);
  in_chunks : list string;
  in_error : option JsError
}.

(** What the middleware has written when it calls [res.end]; header names
    are kept in lower case. *)
Record ServerResponse : Type := mkServerResponse {
  statusCode : Z;
  sr_headers : gmap string string;
  sr_body : option string
}.

(** [res.statusCode = status; res.end(text)] *)
Definition respond (status : Z) (text : string) : ServerResponse :=
  {| statusCode := status; sr_headers := ∅; sr_body := Some text |}.

(** [!v] *)
Definition header_falsy (v : HeaderValue) : bool :=
  match v with
  | HStr s => String.eqb s ""
  | HArr _ => false
  end.

(** [Array.isArray(v) ? v.join(', ') : String(v)] *)
Definition header_text (v : HeaderValue) : string :=
  match v with
  | HStr s => s
  | HArr items => join ", " items
  end.

(** The white space and the line terminators of ECMAScript, which
    [String.prototype.trim] strips, each as the bytes of its encoding:
    U+0009 to U+000D, U+0020, U+00A0, U+1680, U+2000 to U+200A, U+2028,
    U+2029, U+202F, U+205F, U+3000 and U+FEFF. *)
Definition white_space : list string :=
  bytes <$>
    [[9]; [10]; [11]; [12]; [13]; [32]; [194; 160]; [225; 154; 128];
     [226; 128; 128]; [226; 128; 129]; [226; 128; 130]; [226; 128; 131];
     [226; 128; 132]; [226; 128; 133]; [226; 128; 134]; [226; 128; 135];
     [226; 128; 136]; [226; 128; 137]; [226; 128; 138];
     [226; 128; 168]; [226; 128; 169]; [226; 128; 175]; [226; 129; 159];
     [227; 128; 128]; [239; 187; 191]]%nat.

(** What follows the prefix [p] in [s], if [s] starts with [p]. *)
Fixpoint strip_prefix (p s : string) : option string :=
  match p, s with
  | EmptyString, _ => Some s
  | String a p', String b s' => if Ascii.eqb a b then strip_prefix p' s' else None
  | String _ _, EmptyString => None
  end.

(** What follows the white space character [s] starts with, if any. *)
Definition white_prefix (s : string) : option string :=
  foldr (λ p found, match strip_prefix p s with Some rest => Some rest | None => found end)
        None white_space.

(** Drops white space characters in front, at most [fuel] of them. *)
Fixpoint skip_white (fuel : nat) (s : string) : string :=
  match fuel with
  | O => s
  | S fuel' =>
      match white_prefix s with
      | Some rest => skip_white fuel' rest
      | None => s
      end
  end.

(** [s.trimStart()]: a string has no more characters than bytes. *)
Definition trimStart (s : string) : string := skip_white (String.length s) s.

(** [s.trimEnd()]: cut where only white space follows.  In UTF-8 no
    character's encoding starts inside another's, so a tail made up of
    white space encodings is a tail of white space characters. *)
Fixpoint trimEnd (s : string) : string :=
  match s with
  | EmptyString => EmptyString
  | String c rest =>
      if String.eqb (trimStart s) "" then EmptyString else String c (trimEnd rest)
  end.

(** [s.trim()] *)
Definition trim (s : string) : string := trimEnd (trimStart s).

(** [/^https?:\/\//i.test(target)] *)
Definition is_http (target : string) : bool :=
  let t := toLowerCase target in
  String.prefix "http://" t || String.prefix "https://" t.

(** The [content-type] of the incoming message is a string, as Node
    delivers it (only [set-cookie] comes as an array). *)
Definition content_type_is_text (req : Incoming) : bool :=
  forallb (λ kv, negb (String.eqb (toLowerCase kv.1) "content-type")
                 || match kv.2 with HStr _ => true | HArr _ => false end)
          (in_headers req).

Definition hopByHop : gset string :=
  list_to_set
    ["host"; "connection"; "keep-alive"; "proxy-authenticate"; "proxy-authorization";
     "te"; "trailer"; "transfer-encoding"; "upgrade"; "accept-encoding"; "origin";
     "referer"].

(** The loop over [Object.entries(req.headers)], then the forced
    [accept-encoding]. *)
Definition forward_header (acc : gmap string string) (kv : string * HeaderValue)
  : gmap string string :=
  let '(k, v) := kv in
  if header_falsy v then acc
  else let key := toLowerCase k in
       if bool_decide (key ∈ hopByHop) then acc
       else <[ key := header_text v ]> acc.

Definition fwdHeaders (req : Incoming) : gmap string string :=
  <[ "accept-encoding" := "identity" ]> (foldl forward_header ∅ (in_headers req)).

(** [(req.method || 'GET').toUpperCase()] *)
Definition method_of (req : Incoming) : string :=
  toUpperCase (default "GET" (if truthy_str (in_method req) then in_method req else None)).

Definition maxRedirects : Z := 5.

(** The mutable [currentUrl], [currentMethod], [currentHeaders] and
    [currentBody] of the redirect loop. *)
Record Current : Type := mkCurrent {
  currentUrl : string;
  currentMethod : string;
  currentHeaders : gmap string string;
  currentBody : option string
}.

(** The loop variables before the first iteration, [body] being the
    buffered body; a body sets [content-length]. *)
Definition first_request (req : Incoming) (target : string) (body : option string)
  : Current :=
  {| currentUrl := target;
     currentMethod := method_of req;
     currentHeaders :=
       match body with
       | Some b => <[ "content-length" := pretty (String.length b) ]> (fwdHeaders req)
       | None => fwdHeaders req
       end;
     currentBody := body |}.

(** The body the middleware buffers when the stream ends without error. *)
Definition buffered_body (req : Incoming) : option string :=
  if bool_decide (method_of req ∈ ["GET"; "HEAD"]) then None
  else match in_chunks req with
       | [] => None
       | chunks => Some (join "" chunks)
       end.

Definition request_of (cur : Current) : Request :=
  {| rq_url := currentUrl cur; rq_method := currentMethod cur;
     rq_headers := currentHeaders cur;
     rq_body := from_option RawBody NoBody (currentBody cur);
     rq_credentials := None; rq_redirect := Some "manual" |}.

(** [status >= 300 && status < 400 && location] *)
Definition is_redirect (r : Response) : bool :=
  (300 <=? rs_status r) && (rs_status r <? 400)
  && truthy_str (headers_get "location" (rs_headers r)).

(** The updates of the loop variables on a redirect to [nextUrl]. *)
Definition redirected (status : Z) (nextUrl : string) (cur : Current) : Current :=
  if (status =? 301) || (status =? 302) || (status =? 303) then
    let h := delete "content-length" (currentHeaders cur) in
    {| currentUrl := nextUrl;
       currentMethod := "GET";
       currentHeaders :=
         (if truthy_str (h !! "content-type") then delete "content-type" h else h);
       currentBody := None |}
  else
    {| currentUrl := nextUrl; currentMethod := currentMethod cur;
       currentHeaders := currentHeaders cur; currentBody := currentBody cur |}.

(** Copying the upstream response into [res]: the callback handed to
    [response.headers.forEach], [res.setHeader] replacing what an earlier
    entry of the same name has set. *)
Definition relay_header (acc : gmap string string) (kv : string * string)
  : gmap string string :=
  let '(key, value) := kv in
  let lower := toLowerCase key in
  if bool_decide (lower ∈ ["transfer-encoding"; "content-encoding"; "content-length"])
  then acc
  else <[ lower := value ]> acc.

Definition relayed_headers (hs : list (string * string)) : gmap string string :=
  foldl relay_header ∅ (headers_entries hs).

Definition relay (response : Response) : ServerResponse :=
  let hs := relayed_headers (rs_headers response) in
  if (rs_status response =? 204) || (rs_status response =? 304) then
    {| statusCode := rs_status response; sr_headers := hs; sr_body := None |}
  else
    {| statusCode := rs_status response;
       sr_headers := <[ "content-length" := pretty (String.length (rs_text response)) ]> hs;
       sr_body := Some (rs_text response) |}.

Definition TypeError_invalid_url : JsError :=
  {| err_name := "TypeError"; err_message := "Invalid URL";
     err_status := None; err_details := None |}.

Definition TypeError_not_a_function : JsError :=
  {| err_name := "TypeError"; err_message := "trim is not a function";
     err_status := None; err_details := None |}.

Section Middleware.
Context {World : Type} `{!Network World} `{!UrlApi}.

(** [console.warn] and [console.error] lines, without the request tag. *)
Definition console (line : string) : M World unit :=
  λ st, (Ok (), {| world := world st; trace := trace st;
                   logs := (logs st ++ [{| ll_label := line; ll_parts := [] |}])%list |}).

(** [for (let i = 0; i <= maxRedirects; i++)], with [todo] the number of
    iterations still to run and [response] the last answer received. *)
Fixpoint follow (todo : nat) (i : Z) (cur : Current) (response : option Response)
  : M World (option Response) :=
  match todo with
  | O => ret response
  | S todo' =>
      let* r := fetch (request_of cur) in
      let status := rs_status r in
      let location := headers_get "location" (rs_headers r) in
      if is_redirect r then
        console ("<- " +:+ pretty status +:+ " redirect to: " +:+ default "" location) ;;;
        match new_URL (default "" location) (Some (currentUrl cur)) with
        | None => throw TypeError_invalid_url
        | Some next =>
            let cur' := redirected status (u_href next) cur in
            if i =? maxRedirects then
              console "Too many redirects" ;;;
              ret (Some r)
            else follow todo' (i + 1) cur' (Some r)
        end
      else ret (Some r)
  end.

(** The outside world answers the next [n] requests of the loop, starting
    from [cur], with redirects whose targets resolve; the result is the
    last of these answers. *)
Fixpoint redirects (n : nat) (cur : Current) (w : World)
    (answer : option (Response * World)) : option (Response * World) :=
  match n with
  | O => answer
  | S n' =>
      match net_fetch (request_of cur) w with
      | (Resolved r, w') =>
          if is_redirect r then
            match new_URL (default "" (headers_get "location" (rs_headers r)))
                          (Some (currentUrl cur)) with
            | Some next =>
                redirects n' (redirected (rs_status r) (u_href next) cur) w'
                          (Some (r, w'))
            | None => None
            end
          else None
      | (Rejected _, _) => None
      end
  end.

(** [(req.headers['x-target-base'] as string | undefined)?.trim()] *)
Definition x_target_base (req : Incoming) : M World (option string) :=
  match list_find (λ kv, kv.1 = "x-target-base") (in_headers req) with
  | None => ret None
  | Some (_, (_, HStr s)) => ret (Some (trim s))
  | Some (_, (_, HArr _)) => throw TypeError_not_a_function
  end.

(** Reading the body of a request that is neither GET nor HEAD. *)
Definition read_body (req : Incoming) : M World (option string) :=
  match in_error req with
  | Some e => throw e
  | None =>
      match in_chunks req with
      | [] => ret None
      | chunks => ret (Some (join "" chunks))
      end
  end.

Definition forward (req : Incoming) (target : string) : M World ServerResponse :=
  let method := method_of req in
  let* body :=
    (if bool_decide (method ∈ ["GET"; "HEAD"]) then ret None else read_body req) in
  let* response :=
    follow (Z.to_nat (maxRedirects + 1)) 0 (first_request req target body) None in
  match response with
  | None => throw (new_Error "No response from upstream")
  | Some response => ret (relay response)
  end.

(** The checks before anything is forwarded: [inl] is a response sent at
    once (the early [return]s), [inr] the target to forward to. *)
Definition checks (req : Incoming) : M World (ServerResponse + string) :=
  match new_URL (default "" (in_url req)) (Some "http://localhost") with
  | None => throw TypeError_invalid_url
  | Some url =>
      let target := searchParams_get "url" url in
      let* base := x_target_base req in
      if negb (truthy_str target) then ret (inl (respond 400 "Missing url param"))
      else
        let target := default "" target in
        if negb (is_http target) then ret (inl (respond 400 "Invalid target url"))
        else if truthy_str base then
          match new_URL target None, new_URL (default "" base) None with
          | Some targetUrl, Some baseUrl =>
              if String.eqb (u_origin targetUrl) (u_origin baseUrl)
              then ret (inr target)
              else ret (inl (respond 403 "Target not allowed for provided X-Target-Base"))
          | _, _ => ret (inl (respond 400 "Invalid X-Target-Base"))
          end
        else ret (inr target)
  end.

Definition handle (req : Incoming) : M World ServerResponse :=
  let* checked := checks req in
  match checked with
  | inl response => ret response
  | inr target => forward req target
  end.

(** The middleware: everything thrown inside becomes a 502. *)
Definition middleware (req : Incoming) : M World ServerResponse :=
  try_catch (handle req)
    (λ err,
       console ("Error: " +:+ err_message err) ;;;
       ret {| statusCode := 502;
              sr_headers := {[ "content-type" := "text/plain; charset=utf-8" ]};
              sr_body := Some ("Proxy error: " +:+
                               (if String.eqb (err_message err) "" then "unknown"
                                else err_message err)) |}).

End Middleware.

End Proxy.

(** ** The rest of the [UploadForm] component: its state and handlers *)

Module Form.
Import Upload.

(** The component's state, without the progress bar.  [completed] lists
    the messages handed to [onComplete], oldest first. *)
Record FormState : Type := mkForm {
  file : option File;
  uploading : bool;
  error : option string;
  completed : list string
}.

Definition initial : FormState :=
  {| file := None; uploading := false; error := None; completed := [] |}.

(** [handleFileChange], [picked] being [e.target.files?.[0]]. *)
Definition handleFileChange (picked : option File) (ui : FormState) : FormState :=
  match picked with
  | None => ui
  | Some f =>
      let err := validateFile f in
      if truthy_str err then
        {| file := None; uploading := uploading ui; error := err;
           completed := completed ui |}
      else
        {| file := Some f; uploading := uploading ui; error := None;
           completed := completed ui |}
  end.


Section Handlers.
Context {World : Type} `{!Network World} `{!UrlApi}.
Context (props : UploadFormProps).



End Handlers.

End Form.

(** ** [src/ui/App.tsx] *)

Module App.

Record AppState : Type := mkApp {
  domain : string;
  isAuthenticated : bool;
  loading : bool;
  token : JsOpt;              (* whatever [data.token] was; [None] is null *)
  statusMessage : string
}.

(** [res.type], which the platform attaches to a response. *)
Class ResponseKind : Type := {
  response_type : Response → string
}.

Definition default_domain : string := "https://www.aicallmetrics.com".

(** [localStorage.getItem('aicm-domain') || 'https://www.aicallmetrics.com'] *)
Definition restored_domain (stored : option string) : string :=
  if truthy_str stored then default "" stored else default_domain.

Definition login_request (dom email password : string) : Request :=
  let target := strip_trailing "/" dom +:+ "/api/auth/login" in
  {| rq_url := "/proxy?url=" +:+ encodeURIComponent target;
     rq_method := "POST"; rq_headers := ∅;
     rq_body := JsonBody (JObj [("email", JStr email); ("password", JStr password)]);
     rq_credentials := Some "include"; rq_redirect := Some "manual" |}.

Definition cors_hint : string :=
  " Potential CORS / preflight issue: ensure server sends Access-Control-Allow-Origin & does not redirect OPTIONS/POST.".

Section Login.
Context {World : Type} `{!Network World} `{!ResponseKind}.

(** [handleLogin]: the state it leaves behind, [finally] included. *)
Definition handleLogin (email password : string) (app : AppState)
  : M World AppState :=
  try_catch
    (let* res := fetch (login_request (domain app) email password) in
     if String.eqb (response_type res) "opaqueredirect"
        || ((300 <=? rs_status res) && (rs_status res <? 400))
     then throw (new_Error "Received redirect during login (possible middleware or HTTPS redirect). This breaks CORS preflight.")
     else
       let* data :=
         try_catch
           (match rs_json res with
            | Some v => ret v
            | None => throw (new_Error "Failed to parse JSON response from login endpoint")
            end)
           (λ parseErr, throw (new_Error "Failed to read response from login endpoint")) in
       let* failed :=
         (if negb (rs_ok res) then ret true
          else let* success := Upload.member data "success" in
               ret (negb (truthy_opt success))) in
       if failed : bool then
         let* message := Upload.member data "message" in
         throw (new_Error
                  (String_of
                     (or_else message
                        (Some (JStr ("Login failed (status " +:+ pretty (rs_status res)
                                     +:+ ")"))))))
       else
         let* tok := Upload.member data "token" in
         ret {| domain := domain app; isAuthenticated := true; loading := false;
                token := (if truthy_opt tok then tok else token app);
                statusMessage := "Login successful. You can now upload a file." |})
    (λ err,
       let msg := if negb (String.eqb (err_message err) "") then err_message err
                  else "Unknown error" in
       let corsHint :=
         if includes "redirect" msg || includes "CORS" msg
            || includes "Failed to fetch" msg
         then cors_hint else "" in
       ret {| domain := domain app; isAuthenticated := isAuthenticated app;
              loading := false; token := token app;
              statusMessage := "Login error: " +:+ msg +:+ corsHint |}).

End Login.

End App.

(** ** What is observed of a computation *)

Module Observe.

(** The three kinds of request the upload component makes. *)
Definition component_call (props : Upload.UploadFormProps) (rq : Request) : Prop :=
  (∃ body, rq = Upload.post_upload_large props body)
  ∨ (∃ id, rq = Upload.analyze_request props id)
  ∨ (∃ url lo hi, rq = Upload.put_request url (FileSlice lo hi)).


Section Calls.
Context {World : Type} `{!Network World} `{!UrlApi}.

(** Every call the computation makes, from any state, satisfies [P]. *)
Definition sends_only {A} (P : Request → Prop) (m : M World A) : Prop :=
  ∀ st, ∃ l, trace (m st).2 = (trace st ++ l)%list ∧ Forall P l.

(** The computation makes at most [n] calls. *)
Definition sends_at_most {A} (n : nat) (m : M World A) : Prop :=
  ∀ st, ∃ l, trace (m st).2 = (trace st ++ l)%list ∧ (length l ≤ n)%nat.

(** The log stays within its 300 lines. *)
Definition keeps_log_capped {A} (m : M World A) : Prop :=
  ∀ st, (length (logs st) ≤ 300)%nat → (length (logs (m st).2) ≤ 300)%nat.

(** The state of the proxy's loop after the outside world has answered
    [n] requests in a row with redirects whose targets resolve. *)
Fixpoint after_redirects (n : nat) (cur : Proxy.Current) (w : World)
  : option (Proxy.Current * World) :=
  match n with
  | O => Some (cur, w)
  | S n' =>
      match net_fetch (Proxy.request_of cur) w with
      | (Resolved r, w') =>
          if Proxy.is_redirect r then
            match new_URL (default "" (headers_get "location" (rs_headers r)))
                          (Some (Proxy.currentUrl cur)) with
            | Some next =>
                after_redirects n' (Proxy.redirected (rs_status r) (u_href next) cur) w'
            | None => None
            end
          else None
      | (Rejected _, _) => None
      end
  end.

End Calls.

End Observe.

(** ** A scripted outside world, for running the code on examples *)

Module Scenario.

(** The answers to the coming calls of [fetch], in order; once they are
    used up every call is rejected. *)
Definition Script : Type := list FetchOutcome.

Definition failed_to_fetch : JsError :=
  {| err_name := "TypeError"; err_message := "Failed to fetch";
     err_status := None; err_details := None |}.

#[export] Instance script_network : Network Script := {|
  net_fetch _ w :=
    match w with
    | [] => (Rejected failed_to_fetch, [])
    | o :: w' => (o, w')
    end;
  date_now _ := 1700000000000
|}.

(** A stand-in for the URL parser: the text after [?url=] is the [url]
    parameter, and an absolute input is its own origin. *)
Fixpoint after_marker (marker s : string) : option string :=
  if String.prefix marker s
  then Some (String.substring (String.length marker)
                              (String.length s - String.length marker) s)
  else match s with
       | EmptyString => None
       | String _ rest => after_marker marker rest
       end.

#[export] Instance plain_urls : UrlApi := {|
  new_URL input _ :=
    Some {| u_href := input; u_protocol := "https:"; u_host := input;
            u_origin := input; u_pathname := "/";
            u_searchParams :=
              match after_marker "?url=" input with
              | Some target => [("url", target)]
              | None => []
              end |}
|}.

Definition start (w : Script) : Run Script :=
  {| world := w; trace := []; logs := [] |}.

(** The JSON text of a value whose strings need no escaping. *)
Fixpoint render (v : JsVal) : string :=
  match v with
  | JNull => "null"
  | JBool true => "true"
  | JBool false => "false"
  | JNum n => pretty n
  | JStr s => dquote +:+ s +:+ dquote
  | JArr items =>
      "[" +:+ (fix go (l : list JsVal) : string :=
                 match l with
                 | [] => ""
                 | [x] => render x
                 | x :: rest => render x +:+ "," +:+ go rest
                 end) items +:+ "]"
  | JObj fields =>
      "{" +:+ (fix go (l : list (string * JsVal)) : string :=
                 match l with
                 | [] => ""
                 | [(k, x)] => dquote +:+ k +:+ dquote +:+ ":" +:+ render x
                 | (k, x) :: rest =>
                     dquote +:+ k +:+ dquote +:+ ":" +:+ render x +:+ "," +:+ go rest
                 end) fields +:+ "}"
  end.

(** A response whose body is the JSON text of [v]. *)
Definition json_response (status : Z) (v : JsVal) : FetchOutcome :=
  Resolved {| rs_status := status; rs_statusText := "";
              rs_headers := [("content-type", "application/json")];
              rs_text := render v; rs_json := Some v |}.

Definition text_response (status : Z) (hs : list (string * string)) (text : string)
  : FetchOutcome :=
  Resolved {| rs_status := status; rs_statusText := ""; rs_headers := hs;
              rs_text := text; rs_json := None |}.

Definition boom_body : JsVal :=
  JObj [("success", JBool false); ("error", JStr "Boom")].

Definition boom : Response :=
  {| rs_status := 500; rs_statusText := "Internal Server Error";
     rs_headers := [("content-type", "application/json")];
     rs_text := render boom_body; rs_json := Some boom_body |}.

Definition html_page : Response :=
  {| rs_status := 200; rs_statusText := "OK";
     rs_headers := [("content-type", "text/html")];
     rs_text := "<!doctype html>"; rs_json := None |}.

Definition demo : Upload.UploadFormProps :=
  {| Upload.domain := "https://api.example/"; Upload.token := Some "tok123" |}.

Definition one_part_file : Upload.File :=
  {| Upload.f_name := "call.mp3"; Upload.f_size := 1024;
     Upload.f_type := "audio/mpeg" |}.

Definition two_part_file : Upload.File :=
  {| Upload.f_name := "long-call.mp3"; Upload.f_size := 5 * 1024 * 1024 + 1;
     Upload.f_type := "audio/mpeg" |}.

Definition started : JsVal :=
  JObj [("success", JBool true); ("uploadId", JStr "U1"); ("key", JStr "K1")].

Definition two_urls : JsVal :=
  JObj [("success", JBool true);
        ("urls", JArr [JStr "https://storage.example/p1";
                       JStr "https://storage.example/p2"])].

Definition no_urls : JsVal :=
  JObj [("success", JBool true); ("urls", JArr [])].

Definition stored (etag : string) : FetchOutcome :=
  text_response 200 [("etag", etag)] "".

Definition completed (analysisStarted : bool) : JsVal :=
  JObj [("success", JBool true); ("analysisStarted", JBool analysisStarted);
        ("upload", JObj [("id", JStr "up-9")])].

(** One part, two URLs offered; the analysis starts on its own. *)
Definition surplus_script : Script :=
  [json_response 200 started; json_response 200 two_urls; stored "e1";
   json_response 200 (completed true)].

(** One part, no URL offered. *)
Definition missing_script : Script :=
  [json_response 200 started; json_response 200 no_urls; stored "e1";
   json_response 200 (completed true)].

(** Two parts; the analysis does not start and the fallback call is
    rejected, the script being used up. *)
Definition two_part_script : Script :=
  [json_response 200 started; json_response 200 two_urls; stored "e1"; stored "e2";
   json_response 200 (completed false)].

(** The browser's POST to [/proxy?url=...], as the middleware gets it. *)
Definition upload_post : Proxy.Incoming :=
  {| Proxy.in_url := Some "/?url=https://api.example/api/upload-large";
     Proxy.in_method := Some "POST";
     Proxy.in_headers :=
       [("host", Proxy.HStr "localhost:5173");
        ("content-type", Proxy.HStr "text/plain;charset=UTF-8");
        ("authorization", Proxy.HStr "Bearer tok123")];
     Proxy.in_chunks := ["{}"];
     Proxy.in_error := None |}.

Definition upload_target : string := "https://api.example/api/upload-large".

Definition moved (status : Z) : Response :=
  {| rs_status := status; rs_statusText := "";
     rs_headers := [("location", "https://api.example/login")];
     rs_text := "moved"; rs_json := None |}.

Definition arrived : Response :=
  {| rs_status := 200; rs_statusText := "OK";
     rs_headers := [("content-type", "application/json")];
     rs_text := "{}"; rs_json := Some (JObj []) |}.

(** The two cases of the client's test file. *)
Definition test_client (t : option string) : Client.ApiClient :=
  Client.new_ApiClient {| Client.opt_baseUrl := "https://demo.test";
                          Client.opt_token := t;
                          Client.opt_includeCredentials := None |}.

Definition value_42 : JsVal := JObj [("success", JBool true); ("value", JNum 42)].

Definition anonymous : Client.ApiClient :=
  Client.createApiClient "https://api.example/" None.
Definition signed_in : Client.ApiClient :=
  Client.createApiClient "https://api.example/" (Some "tok123").

(** A response is an opaque redirect when it shows status 0. *)
#[export] Instance status_kinds : App.ResponseKind := {|
  App.response_type r := if rs_status r =? 0 then "opaqueredirect" else "basic"
|}.

Definition no_target_get : Proxy.Incoming :=
  {| Proxy.in_url := Some "/"; Proxy.in_method := Some "GET";
     Proxy.in_headers := [("host", Proxy.HStr "localhost:5173")];
     Proxy.in_chunks := []; Proxy.in_error := None |}.

(** The same POST, pinned to another origin. *)
Definition pinned_post : Proxy.Incoming :=
  {| Proxy.in_url := Proxy.in_url upload_post;
     Proxy.in_method := Proxy.in_method upload_post;
     Proxy.in_headers :=
       (Proxy.in_headers upload_post
        ++ [("x-target-base", Proxy.HStr " https://other.example ")])%list;
     Proxy.in_chunks := Proxy.in_chunks upload_post;
     Proxy.in_error := None |}.

(** The same POST, with a no-break space (U+00A0) and a tab for
    [X-Target-Base]. *)
Definition blank_pinned_post : Proxy.Incoming :=
  {| Proxy.in_url := Proxy.in_url upload_post;
     Proxy.in_method := Proxy.in_method upload_post;
     Proxy.in_headers :=
       (Proxy.in_headers upload_post
        ++ [("x-target-base", Proxy.HStr (bytes [194; 160; 9]%nat))])%list;
     Proxy.in_chunks := Proxy.in_chunks upload_post;
     Proxy.in_error := None |}.

(** An answer that sets two cookies. *)
Definition two_cookies : Response :=
  {| rs_status := 200; rs_statusText := "OK";
     rs_headers := [("Set-Cookie", "a=1"); ("Content-Type", "text/plain");
                    ("Vary", "Origin"); ("set-cookie", "b=2"); ("vary", "Accept")];
     rs_text := "ok"; rs_json := None |}.

Definition aborted : JsError :=
  {| err_name := "Error"; err_message := "aborted";
     err_status := None; err_details := None |}.

(** The same POST, whose body stream breaks. *)
Definition broken_post : Proxy.Incoming :=
  {| Proxy.in_url := Proxy.in_url upload_post;
     Proxy.in_method := Proxy.in_method upload_post;
     Proxy.in_headers := Proxy.in_headers upload_post;
     Proxy.in_chunks := ["{"];
     Proxy.in_error := Some aborted |}.

Definition signed_out : App.AppState :=
  {| App.domain := "https://api.example/"; App.isAuthenticated := false;
     App.loading := false; App.token := None; App.statusMessage := "" |}.

Definition logged_in_without_token : JsVal := JObj [("success", JBool true)].


Definition oversize_file : Upload.File :=
  {| Upload.f_name := "day.wav"; Upload.f_size := 6 * 1024 * 1024;
     Upload.f_type := "audio/wav" |}.

End Scenario.

(** * Properties *)

(** ** Validator *)

Section ValidationFacts.
Import Validation.

(** The three cases of [src/__tests__/validation.test.ts]. *)
Example validate_accepts_valid_file :
  valid (validateAudioFile "test.mp3" 1024 "audio/mpeg") = true.
Proof. reflexivity. Qed.

Example validate_rejects_oversize :
  validateAudioFile "big.mp3" (MAX_SIZE_BYTES + 1) "audio/mpeg"
  = {| valid := false; error := Some "File exceeds 5MB limit" |}.
Proof. reflexivity. Qed.

Example validate_rejects_invalid_type :
  validateAudioFile "test.txt" 1000 "text/plain"
  = {| valid := false; error := Some "Unsupported file type" |}.
Proof. vm_compute. reflexivity. Qed.

(** C3. [validateAudioFile] answers valid exactly when the size is at most
    5 MiB and the MIME type is in the allow-list; an oversize file is
    rejected with the message naming the 5MB limit whatever its type; a
    file within the limit whose type is not listed is rejected with the
    unsupported-type message. *)
Theorem validate_spec (name : string) (size : Z) (type : string) :
  (valid (validateAudioFile name size type) = true
     ↔ size ≤ 5 * 1024 * 1024 ∧ type ∈ ACCEPTED_TYPES)
  ∧ (size > 5 * 1024 * 1024 →
       ∃ msg, validateAudioFile name size type
                = {| valid := false; error := Some msg |}
              ∧ msg = "File exceeds 5MB limit"
              ∧ includes "5MB" msg = true ∧ includes "limit" msg = true)
  ∧ (size ≤ 5 * 1024 * 1024 → type ∉ ACCEPTED_TYPES →
       ∃ msg, validateAudioFile name size type
                = {| valid := false; error := Some msg |}
              ∧ msg = "Unsupported file type"
              ∧ includes "Unsupported" msg = true).
Proof.
  unfold validateAudioFile.
  change MAX_SIZE_BYTES with 5242880.
  change (5 * 1024 * 1024) with 5242880.
  destruct (Z.gtb_spec size 5242880) as [Hbig | Hsmall].
  - split; [| split].
    + split; [discriminate | intros [? _]; lia].
    + intros _. eexists; repeat split; reflexivity.
    + intros; lia.
  - case_bool_decide as Hty; cbn [negb].
    + split; [| split].
      * split; [intros _; split; [lia | done] | done].
      * intros; lia.
      * intros _ Hn. done.
    + split; [| split].
      * split; [discriminate | intros [_ ?]; done].
      * intros; lia.
      * intros _ _. eexists; repeat split; reflexivity.
Qed.

Lemma validate_spec_witness :
  (∃ msg, validateAudioFile "big.mp3" 5242881 "audio/mpeg"
            = {| valid := false; error := Some msg |}
          ∧ msg = "File exceeds 5MB limit"
          ∧ includes "5MB" msg = true ∧ includes "limit" msg = true)
  ∧ (∃ msg, validateAudioFile "test.txt" 1000 "text/plain"
              = {| valid := false; error := Some msg |}
            ∧ msg = "Unsupported file type"
            ∧ includes "Unsupported" msg = true).
Proof.
  split.
  - apply (validate_spec "big.mp3" 5242881 "audio/mpeg"). lia.
  - apply (validate_spec "test.txt" 1000 "text/plain"); [lia |].
    vm_compute. discriminate.
Defined.

End ValidationFacts.

(** ** Session client *)

Section ClientFacts.
Import Client.
Context {World : Type} `{!Network World}.

Lemma string_app_assoc (a b c : string) : (a +:+ b) +:+ c = a +:+ (b +:+ c).
Proof.
  induction a as [| x a IH]; [done |].
  change (String x ((a +:+ b) +:+ c) = String x (a +:+ (b +:+ c))).
  by rewrite IH.
Qed.

Lemma strip_trailing_snoc (c : ascii) (s : string) :
  strip_trailing c (s +:+ String c EmptyString) = s.
Proof.
  induction s as [| a s IH].
  - change ("" +:+ String c "") with (String c ""). cbn. by rewrite Ascii.eqb_refl.
  - change (String a s +:+ String c "") with (String a (s +:+ String c "")).
    cbn [strip_trailing]. rewrite IH.
    destruct s as [| a' s]; [| done].
    by change ("" +:+ String c "") with (String c "").
Qed.

Lemma postJson_with_run redirect c path body opts (st : Run World) :
  postJson_with redirect c path body opts st =
  let rq := postJson_request redirect c path body opts in
  let st' := {| world := (net_fetch rq (world st)).2;
                trace := (trace st ++ [rq])%list; logs := logs st |} in
  match (net_fetch rq (world st)).1 with
  | Rejected e => (Throw e, st')
  | Resolved res =>
      let data := default JNull (rs_json res) in
      if is_failure res data then
        (Throw {| err_name := "Error";
                  err_message := failure_message data (rs_status res);
                  err_status := Some (rs_status res);
                  err_details := Some data |}, st')
      else (Ok data, st')
  end.
Proof.
  unfold postJson_with, bind, fetch. cbn zeta.
  destruct (net_fetch _ _) as [[e | res] w']; cbn; [done |].
  by destruct (is_failure _ _).
Qed.

Lemma postJson_traced_run c path body opts (st : Run World) :
  postJson_traced c path body opts st = postJson_with (Some "manual") c path body opts st.
Proof.
  unfold postJson_traced, try_catch, throw.
  by destruct (postJson_with _ _ _ _ _ st) as [[a | e] st'].
Qed.

Lemma sent_postJson_with redirect c path body opts (st : Run World) :
  sent (postJson_with redirect c path body opts) st
  = [postJson_request redirect c path body opts].
Proof.
  unfold sent. rewrite postJson_with_run. cbn zeta.
  assert (Hd : ∀ (l k : list Request), drop (length l) (l ++ k) = k)
    by (intros; apply drop_app_length).
  destruct (net_fetch _ _).1 as [e | res]; [| destruct (is_failure _ _)]; apply Hd.
Qed.

Lemma buildHeaders_no_token c extra :
  token c = None ∨ token c = Some "" → buildHeaders c extra = default ∅ extra.
Proof.
  unfold buildHeaders. intros [-> | ->]; cbn; apply (right_id ∅ (∪)).
Qed.

Lemma truthy_str_nonempty t : t ≠ "" → truthy_str (Some t) = true.
Proof.
  intros Hne. cbn. destruct (String.eqb_spec t ""); [done | reflexivity].
Qed.

(** C4. Every [postJson] issues one call.  Without a token (absent, or the
    empty string, which the guard treats alike) the call has no
    [Authorization] header under any spelling; with a token [t] its
    [Authorization] header is the string [Bearer t]. *)
Theorem postJson_authorization (c : ApiClient) (path : string) (body : JsVal)
    (opts : option PostOptions) (st : Run World) :
  sent (postJson c path body opts) st = [postJson_request None c path body opts]
  ∧ sent (postJson_traced c path body opts) st
    = [postJson_request (Some "manual") c path body opts]
  ∧ ∀ redirect,
      let rq := postJson_request redirect c path body opts in
      (token c = None ∨ token c = Some "" →
         rq_headers rq !! "Authorization" = None
         ∧ ∀ k, is_Some (rq_headers rq !! k) → toLowerCase k ≠ "authorization")
      ∧ (∀ t, token c = Some t → t ≠ "" →
           rq_headers rq !! "Authorization" = Some ("Bearer " +:+ t)).
Proof.
  split; [apply sent_postJson_with |].
  split.
  { unfold sent. rewrite postJson_traced_run. apply sent_postJson_with. }
  intros redirect. cbn zeta.
  unfold postJson_request; cbn [rq_headers]. split.
  - intros Hno. rewrite (buildHeaders_no_token _ _ Hno).
    destruct (default false _); cbn.
    + split; [done |]. intros k [v Hk].
      apply lookup_singleton_Some in Hk as [<- _]. by vm_compute.
    + split; [done |]. intros k [v Hk]. by rewrite lookup_empty in Hk.
  - intros t Ht Hne. unfold buildHeaders. rewrite Ht, (truthy_str_nonempty _ Hne).
    destruct (default false _); cbn.
    + rewrite lookup_union_r by done. apply lookup_singleton_eq.
    + rewrite (left_id ∅ (∪)). apply lookup_singleton_eq.
Qed.




(** C10. When the status is a success and the body does not parse,
    [postJson] resolves with [null]; and whatever the body parses to is
    returned as it is unless it carries [success: false]. *)
Theorem postJson_unparsable_body (redirect : option string) (c : ApiClient)
    (path : string) (body : JsVal) (opts : option PostOptions)
    (st : Run World) (res : Response) (w' : World) :
  net_fetch (postJson_request redirect c path body opts) (world st) = (Resolved res, w') →
  rs_ok res = true →
  let out := (postJson_with redirect c path body opts st).1 in
  (rs_json res = None → out = Ok JNull)
  ∧ (∀ v, rs_json res = Some v → strict_eq_false (get_prop v "success") = false →
       out = Ok v).
Proof.
  intros Hnet Hok out. subst out.
  rewrite postJson_with_run. cbn zeta. rewrite Hnet. cbn [fst snd].
  unfold is_failure. rewrite Hok. cbn [negb orb]. split.
  - by intros ->.
  - intros v -> Hv. cbn [default from_option id]. by rewrite Hv, andb_false_r.
Qed.

End ClientFacts.

Section ClientExamples.
Import Client Scenario.

Example client_test_adds_authorization :
  let body := JObj [("hello", JStr "world")] in
  let run := postJson (test_client (Some "abc123")) "/api/test" body None
               (start [json_response 200 value_42]) in
  run.1 = Ok value_42
  ∧ get_prop value_42 "value" = Some (JNum 42)
  ∧ (rq_headers <$> trace run.2 !! 0%nat) ≫= (.!! "Authorization") = Some "Bearer abc123"
  ∧ (rq_headers <$> trace run.2 !! 0%nat) ≫= (.!! "Content-Type") = None.
Proof. split_and!; by vm_compute. Qed.

Example client_test_throws_on_non_success :
  err_message <$> (match (postJson (test_client None) "/api/test" (JObj [])
                            None (start [Resolved boom])).1 with
                   | Throw e => Some e
                   | Ok _ => None
                   end) = Some "Boom".
Proof. by vm_compute. Qed.

Lemma postJson_authorization_witness :
  rq_headers (postJson_request None anonymous "/api/analyze" JNull None)
    !! "Authorization" = None
  ∧ rq_headers (postJson_request None signed_in "/api/analyze" JNull None)
    !! "Authorization" = Some "Bearer tok123".
Proof.
  split.
  - apply (proj2 (proj2 (postJson_authorization anonymous "/api/analyze" JNull None
                           (start []))) None).
    left. reflexivity.
  - apply (proj2 (proj2 (postJson_authorization signed_in "/api/analyze" JNull None
                           (start []))) None);
      [reflexivity | discriminate].
Defined.


Lemma postJson_unparsable_body_witness :
  (postJson signed_in "/api/analyze" JNull None (start [Resolved html_page])).1 = Ok JNull.
Proof.
  assert (Hnet : net_fetch (postJson_request None signed_in "/api/analyze" JNull None)
                    (world (start [Resolved html_page])) = (Resolved html_page, []))
    by reflexivity.
  apply (proj1 (postJson_unparsable_body None signed_in "/api/analyze" JNull None
                  (start [Resolved html_page]) html_page [] Hnet eq_refl)).
  reflexivity.
Defined.

End ClientExamples.

(** ** Upload orchestrator *)

Section UploadFacts.
Import Upload.
Context {World : Type} `{!Network World} `{!UrlApi}.
Context (props : UploadFormProps).

(** Unfolds the sequencing operations and splits on every test met. *)
Ltac run_steps :=
  unfold bind, pushLog, fetch, member, throw, ret, try_catch, now; cbn;
  repeat (case_match; cbn in *; simplify_eq; try done).

Lemma sent_app {A} (m : M World A) (st : Run World) l :
  trace (m st).2 = (trace st ++ l)%list → sent m st = l.
Proof. unfold sent. intros ->. apply drop_app_length. Qed.

(** The detour through a trailing dot changes nothing. *)
Lemma proxied_plain path :
  proxied props path = "/proxy?url=" +:+ encodeURIComponent (base props +:+ path).
Proof.
  unfold proxied. rewrite <- string_app_assoc. apply strip_trailing_snoc.
Qed.

Lemma phase_start_trace f (st : Run World) :
  trace (phase_start props f st).2
  = (trace st ++ [post_upload_large props (start_upload_body f)])%list.
Proof. unfold phase_start. run_steps. Qed.

Lemma phase_get_urls_trace uploadId key parts (st : Run World) :
  trace (phase_get_urls props uploadId key parts st).2
  = (trace st ++ [post_upload_large props (get_urls_body uploadId key parts)])%list.
Proof. unfold phase_get_urls. run_steps. Qed.

Lemma phase_complete_trace f uploadId key ups (st : Run World) :
  trace (phase_complete props f uploadId key ups st).2
  = (trace st ++ [post_upload_large props (complete_body f uploadId key ups)])%list.
Proof. unfold phase_complete. run_steps. Qed.

Lemma phase_fallback_trace completeData (st : Run World) :
  trace (phase_fallback props completeData st).2
  = (trace st ++ (if needs_fallback completeData
                  then [analyze_request props (upload_id completeData)] else []))%list.
Proof.
  unfold phase_fallback. destruct (needs_fallback completeData).
  - run_steps.
  - cbn. by rewrite app_nil_r.
Qed.


Lemma put_part_spec parts f urlsData i (st : Run World) :
  let out := put_part i parts f urlsData st in
  ∃ puts,
    trace out.2 = (trace st ++ puts)%list
    ∧ (length puts ≤ 1)%nat
    ∧ Forall (λ rq, rq_method rq = "PUT" ∧ rq_body rq = chunk_of f i) puts
    ∧ ∀ p, out.1 = Ok p → length puts = 1%nat ∧ PartNumber p = i + 1.
Proof.
  unfold put_part, member_at.
  destruct (get_prop urlsData "urls") as [x |].
  2: { exists []. cbn. rewrite app_nil_r. split_and!; [done | lia | done | done]. }
  set (rq := put_request (String_of (index x i)) (chunk_of f i)).
  assert (Hrq : Forall (λ rq, rq_method rq = "PUT" ∧ rq_body rq = chunk_of f i) [rq])
    by (repeat constructor).
  destruct x; cbn zeta.
  1: { exists []. cbn. rewrite app_nil_r. split_and!; [done | lia | done | done]. }
  all: exists [rq]; split_and!; [| done | done |]; run_steps.
  all: by intros p [= <-].
Qed.

Lemma put_parts_spec parts f urlsData todo :
  ∀ i ups (st : Run World),
    let out := put_parts todo i parts f urlsData ups st in
    ∃ puts,
      trace out.2 = (trace st ++ puts)%list
      ∧ (length puts ≤ todo)%nat
      ∧ Forall (λ rq, rq_method rq = "PUT") puts
      ∧ rq_body <$> puts
        = (λ j : nat, chunk_of f (i + Z.of_nat j)) <$> seq 0 (length puts)
      ∧ ∀ l, out.1 = Ok l →
          length puts = todo
          ∧ ∃ new, l = (ups ++ new)%list
                   ∧ PartNumber <$> new = (λ j : nat, i + Z.of_nat j) <$> seq 1 todo.
Proof.
  induction todo as [| todo IH]; intros i ups st out; subst out.
  - exists []. cbn. rewrite app_nil_r. split_and!; [done.. |].
    intros l [= <-]. split; [done |]. exists []. by rewrite app_nil_r.
  - cbn [put_parts]. unfold bind at 1 2.
    destruct (put_part_spec parts f urlsData i st) as (puts1 & Ht1 & Hlen1 & Hall1 & Hok1).
    cbn zeta in *.
    destruct (put_part i parts f urlsData st) as [[p | e] st1]; cbn [fst snd] in *.
    + destruct (Hok1 p eq_refl) as [Hone Hnum].
      destruct puts1 as [| rq [| ? ?]]; try discriminate Hone.
      apply Forall_singleton in Hall1 as [Hm Hb].
      destruct (IH (i + 1) (ups ++ [p])%list st1) as (puts & Ht & Hlen & Hall & Hbodies & Hok).
      cbn zeta in *.
      exists (rq :: puts). split_and!.
      * rewrite Ht, Ht1. by rewrite <- app_assoc.
      * cbn. lia.
      * by constructor.
      * cbn. rewrite Hb, Hbodies. f_equal; [f_equal; lia |].
        rewrite <- (fmap_S_seq 0), <- list_fmap_compose.
        apply list_fmap_ext. intros _ j _. cbn. f_equal. lia.
      * intros l Hl. destruct (Hok l Hl) as (Hlen' & new & -> & Hnew).
        split; [cbn; lia |].
        exists (p :: new). split; [by rewrite <- app_assoc |].
        cbn [fmap list_fmap seq]. rewrite Hnum. f_equal.
        rewrite Hnew.
        rewrite <- (fmap_S_seq 1), <- list_fmap_compose.
        apply list_fmap_ext. intros _ j _. cbn. lia.
    + exists puts1. split_and!; try done.
      * lia.
      * eapply Forall_impl; [exact Hall1 |]. by intros ? [? ?].
      * destruct puts1 as [| rq [| ? ?]]; cbn in *; [done | | lia].
        apply Forall_singleton in Hall1 as [_ ->]. do 2 f_equal. lia.
Qed.

(** The calls of one run, phase by phase: the start call; the URL call
    when the start phase passed; the PUTs; and, when every part went
    through, the completion call, followed by the fallback call if any. *)
Lemma startSimpleMultipart_shape f (st : Run World) :
  let n := Z.to_nat (part_count f) in
  ∃ l2 puts l4 l5 : list Request,
    trace (startSimpleMultipart props f st).2
    = (trace st ++ post_upload_large props (start_upload_body f)
                   :: l2 ++ puts ++ l4 ++ l5)%list
    ∧ l2 = match (phase_start props f st).1 with
           | Ok (uploadId, key) =>
               [post_upload_large props (get_urls_body uploadId key (part_count f))]
           | Throw _ => []
           end
    ∧ Forall (λ rq, rq_method rq = "PUT") puts
    ∧ rq_body <$> puts = (λ j : nat, chunk_of f (Z.of_nat j)) <$> seq 0 (length puts)
    ∧ ((l4 = [] ∧ l5 = [])
       ∨ ∃ uploadId key ups,
           l4 = [post_upload_large props (complete_body f uploadId key ups)]
           ∧ length puts = n
           ∧ PartNumber <$> ups = Z.of_nat <$> seq 1 n
           ∧ (l5 = [] ∨ ∃ id, l5 = [analyze_request props id])).
Proof.
  intros n. unfold startSimpleMultipart, bind.
  pose proof (phase_start_trace f st) as H1.
  destruct (phase_start props f st) as [[[uploadId key] | e] st1]; cbn [snd] in H1.
  2: { exists [], [], [], []. split; [done | by eauto 10]. }
  pose proof (phase_get_urls_trace uploadId key (part_count f) st1) as H2.
  destruct (phase_get_urls props uploadId key (part_count f) st1)
    as [[urlsData | e] st2]; cbn [snd] in H2.
  2: { exists [post_upload_large props (get_urls_body uploadId key (part_count f))],
         [], [], [].
       split; [cbn; rewrite H2, H1; by rewrite <- app_assoc |].
       eauto 10. }
  unfold phase_put_parts.
  destruct (put_parts_spec (part_count f) f urlsData n 0 [] st2)
    as (puts & H3 & _ & Hput & Hbodies & Hok).
  cbn zeta in *. fold n.
  assert (Hbodies' : rq_body <$> puts
                     = (λ j : nat, chunk_of f (Z.of_nat j)) <$> seq 0 (length puts)).
  { rewrite Hbodies. apply list_fmap_ext. intros _ j _. by rewrite Z.add_0_l. }
  destruct (put_parts n 0 (part_count f) f urlsData [] st2) as [[ups | e] st3];
    cbn [fst snd] in *.
  2: { exists [post_upload_large props (get_urls_body uploadId key (part_count f))],
         puts, [], [].
       split; [cbn; rewrite H3, H2, H1, app_nil_r; by rewrite <- !app_assoc |].
       eauto 10. }
  destruct (Hok ups eq_refl) as (Hlen & new & Hups & Hnew). cbn in Hups. subst new.
  assert (Hnums : PartNumber <$> ups = Z.of_nat <$> seq 1 n).
  { rewrite Hnew. apply list_fmap_ext. intros _ j _. by rewrite Z.add_0_l. }
  pose proof (phase_complete_trace f uploadId key ups st3) as H4.
  destruct (phase_complete props f uploadId key ups st3) as [[cd | e] st4];
    cbn [snd] in H4.
  2: { exists [post_upload_large props (get_urls_body uploadId key (part_count f))],
         puts, [post_upload_large props (complete_body f uploadId key ups)], [].
       split; [cbn; rewrite H4, H3, H2, H1; by rewrite <- !app_assoc |].
       split_and!; eauto 10. }
  pose proof (phase_fallback_trace cd st4) as H5.
  exists [post_upload_large props (get_urls_body uploadId key (part_count f))],
    puts, [post_upload_large props (complete_body f uploadId key ups)],
    (if needs_fallback cd then [analyze_request props (upload_id cd)] else []).
  split; [cbn; rewrite H5, H4, H3, H2, H1; by rewrite <- !app_assoc |].
  split_and!; [eauto 10 .. |]. right. exists uploadId, key, ups.
  split_and!; try done. destruct (needs_fallback cd); eauto.
Qed.

Lemma ceil_div_remainder c k r : 0 < r ≤ c → ceil_div (c * k + r) c = k + 1.
Proof.
  intros Hr. unfold ceil_div.
  assert ((- (c * k + r)) / c = - (k + 1)) as ->; [| lia].
  symmetry. apply (Z.div_unique _ _ _ (c - r)); lia.
Qed.

Lemma get_urls_body_fields uploadId key parts :
  get_prop (get_urls_body uploadId key parts) "action" = Some (JStr "get-upload-urls")
  ∧ get_prop (get_urls_body uploadId key parts) "parts" = Some (JNum parts).
Proof. by destruct uploadId, key. Qed.

(** C6. For a file of [5MiB * k + r] bytes, [r] being what is left over
    after [k] full chunks ([0 < r ≤ 5MiB]), the part count is [k + 1], and
    once the start phase has passed, the second call of the run is the
    [get-upload-urls] call with [parts = k + 1]. *)
Theorem part_count_requested (f : File) (k r : Z) (st : Run World) :
  0 ≤ k → 0 < r ≤ 5 * 1024 * 1024 →
  f_size f = 5 * 1024 * 1024 * k + r →
  part_count f = k + 1
  ∧ ∀ uploadId key st1,
      phase_start props f st = (Ok (uploadId, key), st1) →
      ∃ rq, sent (startSimpleMultipart props f) st !! 1%nat = Some rq
            ∧ rq = post_upload_large props (get_urls_body uploadId key (k + 1))
            ∧ action_of rq = Some (JStr "get-upload-urls")
            ∧ requested_parts rq = Some (JNum (k + 1)).
Proof.
  intros Hk Hr Hsize.
  assert (Hcount : part_count f = k + 1).
  { unfold part_count. rewrite Hsize. by apply ceil_div_remainder. }
  split; [done |]. intros uploadId key st1 Hstart.
  destruct (startSimpleMultipart_shape f st) as (l2 & puts & l4 & l5 & Htrace & Hl2 & _).
  rewrite Hstart in Hl2. cbn in Hl2. subst l2. rewrite Hcount in Htrace.
  rewrite (sent_app _ _ _ Htrace). eexists. split; [reflexivity |].
  split; [done |]. unfold action_of, requested_parts. cbn [rq_body post_upload_large].
  apply get_urls_body_fields.
Qed.

Lemma complete_body_fields f uploadId key ups :
  get_prop (complete_body f uploadId key ups) "action" = Some (JStr "complete-upload")
  ∧ get_prop (complete_body f uploadId key ups) "parts"
    = Some (JArr (part_json <$> ups)).
Proof. by destruct uploadId, key. Qed.

(** C9. In every run, a [complete-upload] call that is sent lists the
    part numbers 1, 2, ..., n in this order, n being the part count, and
    the PUT calls of the run are the n chunks of the file in order. *)
Theorem complete_upload_part_numbers (f : File) (st : Run World) (rq : Request) :
  rq ∈ sent (startSimpleMultipart props f) st →
  action_of rq = Some (JStr "complete-upload") →
  let n := Z.to_nat (part_count f) in
  part_numbers_of rq = Some ((λ j : nat, Some (JNum (Z.of_nat j))) <$> seq 1 n)
  ∧ rq_body <$> filter (λ q, rq_method q = "PUT") (sent (startSimpleMultipart props f) st)
    = (λ j : nat, chunk_of f (Z.of_nat j)) <$> seq 0 n.
Proof.
  intros Hin Hact n.
  destruct (startSimpleMultipart_shape f st)
    as (l2 & puts & l4 & l5 & Htrace & Hl2 & Hputs & Hbodies & Hrest).
  fold n in Hrest. rewrite (sent_app _ _ _ Htrace) in Hin |- *.
  assert (Hl2' : ∀ q, q ∈ l2 →
            rq_method q = "POST" ∧ action_of q = Some (JStr "get-upload-urls")).
  { intros q Hq. subst l2.
    destruct (phase_start props f st).1 as [[uploadId key] | e];
      [| by apply elem_of_nil in Hq].
    apply list_elem_of_singleton in Hq as ->. split; [done |].
    apply get_urls_body_fields. }
  assert (Hputs' : ∀ q, q ∈ puts → action_of q = None).
  { intros q Hq.
    assert (rq_body q ∈ rq_body <$> puts) as Hb by (by apply list_elem_of_fmap_2).
    rewrite Hbodies in Hb. apply list_elem_of_fmap in Hb as (j & Hb & _).
    unfold action_of. by rewrite Hb. }
  assert (Hfilter : ∀ l : list Request,
            (∀ q, q ∈ l → rq_method q = "POST") → filter (λ q, rq_method q = "PUT") l = []).
  { intros l Hl. induction l as [| q l IHl]; [done |].
    rewrite filter_cons_False.
    - apply IHl. intros q' Hq'. apply Hl. by right.
    - rewrite (Hl q) by (by left). discriminate. }
  destruct Hrest as [[-> ->] | (uploadId & key & ups & -> & Hlen & Hnums & Hl5)].
  - exfalso. rewrite !app_nil_r in Hin.
    apply elem_of_cons in Hin as [-> | Hin]; [discriminate Hact |].
    apply elem_of_app in Hin as [Hin | Hin].
    + destruct (Hl2' _ Hin) as [_ Hq]. congruence.
    + rewrite (Hputs' _ Hin) in Hact. discriminate.
  - split.
    + apply elem_of_cons in Hin as [-> | Hin]; [discriminate Hact |].
      apply elem_of_app in Hin as [Hin | Hin];
        [destruct (Hl2' _ Hin) as [_ Hq]; congruence |].
      apply elem_of_app in Hin as [Hin | Hin];
        [rewrite (Hputs' _ Hin) in Hact; discriminate |].
      apply elem_of_app in Hin as [Hin | Hin].
      * apply list_elem_of_singleton in Hin as ->.
        unfold part_numbers_of. cbn [rq_body post_upload_large].
        rewrite (proj2 (complete_body_fields f uploadId key ups)).
        f_equal. rewrite <- list_fmap_compose.
        transitivity ((λ z, Some (JNum z)) <$> (PartNumber <$> ups)).
        { by rewrite <- list_fmap_compose. }
        rewrite Hnums. by rewrite <- list_fmap_compose.
      * destruct Hl5 as [-> | [id ->]]; [by apply elem_of_nil in Hin |].
        apply list_elem_of_singleton in Hin as ->. discriminate Hact.
    + rewrite filter_cons_False by discriminate.
      rewrite !filter_app.
      rewrite (Hfilter l2) by (intros q Hq; apply (Hl2' q Hq)).
      rewrite (Hfilter [_]) by (by intros q ->%list_elem_of_singleton).
      rewrite (Hfilter l5).
      2: { intros q Hq. destruct Hl5 as [-> | [id ->]]; [by apply elem_of_nil in Hq |].
           by apply list_elem_of_singleton in Hq as ->. }
      cbn. rewrite app_nil_r.
      assert (filter (λ q, rq_method q = "PUT") puts = puts) as ->.
      { clear -Hputs. induction Hputs as [| q l Hq _ IHl]; [done |].
        rewrite filter_cons_True by done. by rewrite IHl. }
      by rewrite Hbodies, Hlen.
Qed.






End UploadFacts.

Section UploadExamples.
Import Upload Scenario.


(** With no URL at all for the one part, the run goes on as well: the
    part is PUT to the text of [undefined]. *)
Example get_urls_missing_url :
  (startSimpleMultipart demo one_part_file (start missing_script)).1
  = Ok (completed true)
  ∧ rq_url <$> sent (startSimpleMultipart demo one_part_file) (start missing_script)
                 !! 2%nat
    = Some "undefined".
Proof. split; by vm_compute. Qed.


Lemma part_count_requested_witness :
  part_count two_part_file = 2
  ∧ ∃ rq, sent (startSimpleMultipart demo two_part_file) (start two_part_script)
            !! 1%nat = Some rq
          ∧ requested_parts rq = Some (JNum 2).
Proof.
  assert (H1 : 0 ≤ 1) by lia.
  assert (H2 : 0 < 1 ≤ 5 * 1024 * 1024) by lia.
  assert (H3 : f_size two_part_file = 5 * 1024 * 1024 * 1 + 1) by reflexivity.
  destruct (part_count_requested demo two_part_file 1 1 (start two_part_script)
              H1 H2 H3) as [Hcount Hcall].
  split; [exact Hcount |].
  destruct (Hcall (Some (JStr "U1")) (Some (JStr "K1"))
              (phase_start demo two_part_file (start two_part_script)).2)
    as (rq & Hrq & _ & _ & Hparts); [by vm_compute |].
  exists rq. split; [exact Hrq | exact Hparts].
Defined.

Lemma complete_upload_part_numbers_witness :
  ∃ rq, rq ∈ sent (startSimpleMultipart demo two_part_file) (start two_part_script)
        ∧ part_numbers_of rq = Some [Some (JNum 1); Some (JNum 2)].
Proof.
  set (rq := post_upload_large demo
               (complete_body two_part_file (Some (JStr "U1")) (Some (JStr "K1"))
                  [{| ETag := "e1"; PartNumber := 1 |};
                   {| ETag := "e2"; PartNumber := 2 |}])).
  exists rq.
  assert (Hin : rq ∈ sent (startSimpleMultipart demo two_part_file)
                       (start two_part_script)).
  { apply list_elem_of_lookup. exists 4%nat. by vm_compute. }
  split; [exact Hin |].
  apply (proj1 (complete_upload_part_numbers demo two_part_file (start two_part_script)
                  rq Hin eq_refl)).
Defined.


End UploadExamples.

(** ** Forwarding proxy *)

Section ProxyFacts.
Import Proxy Observe.
Context {World : Type} `{!Network World} `{!UrlApi}.

Ltac proxy_steps :=
  unfold bind, fetch, console, throw, ret, try_catch; cbn;
  repeat (case_match; cbn in *; simplify_eq; try done).

Lemma follow_extends n :
  ∀ i cur resp (st : Run World),
    ∃ l, trace (follow n i cur resp st).2 = (trace st ++ l)%list.
Proof.
  induction n as [| n IH]; intros i cur resp st.
  - exists []. cbn. by rewrite app_nil_r.
  - cbn [follow]. unfold bind at 1, fetch at 1.
    destruct (net_fetch (request_of cur) (world st)) as [[e | r] w']; cbn.
    { by eexists. }
    destruct (is_redirect r); [| by eexists].
    unfold bind, console. cbn.
    destruct (new_URL _ _) as [next |]; [| by eexists].
    destruct (i =? maxRedirects); cbn; [by eexists |].
    edestruct IH as [l ->]. cbn. rewrite <- app_assoc. by eexists.
Qed.

(** The first call of the loop is the request as it stands. *)
Lemma follow_first n i cur resp (st : Run World) :
  ∃ l, trace (follow (S n) i cur resp st).2 = (trace st ++ request_of cur :: l)%list.
Proof.
  cbn [follow]. unfold bind at 1, fetch at 1.
  destruct (net_fetch (request_of cur) (world st)) as [[e | r] w']; cbn.
  { by eexists. }
  destruct (is_redirect r); [| by eexists].
  unfold bind, console. cbn.
  destruct (new_URL _ _) as [next |]; [| by eexists].
  destruct (i =? maxRedirects); cbn; [by eexists |].
  edestruct (follow_extends n) as [l ->]. cbn. rewrite <- app_assoc. by eexists.
Qed.

(** After a first answer that is a redirect, and not yet the last
    iteration, the second call is the updated request. *)
Lemma follow_second n i cur resp (st : Run World) r w' next :
  net_fetch (request_of cur) (world st) = (Resolved r, w') →
  is_redirect r = true →
  new_URL (default "" (headers_get "location" (rs_headers r))) (Some (currentUrl cur))
  = Some next →
  i ≠ maxRedirects →
  ∃ l, trace (follow (S (S n)) i cur resp st).2
       = (trace st ++ request_of cur
                   :: request_of (redirected (rs_status r) (u_href next) cur) :: l)%list.
Proof.
  intros Hnet Hred Hnext Hi.
  remember (S n) as m eqn:Hm.
  cbn [follow]. unfold bind at 1, fetch at 1. rewrite Hnet. cbn [fst snd].
  rewrite Hred. unfold bind at 1, console at 1. cbn [fst snd]. rewrite Hnext.
  apply Z.eqb_neq in Hi. rewrite Hi. subst m.
  edestruct (follow_first n) as [l ->]. cbn. rewrite <- app_assoc. by eexists.
Qed.

Lemma checks_state req (st : Run World) : (checks req st).2 = st.
Proof. unfold checks, x_target_base. proxy_steps. Qed.

Lemma middleware_trace req target (st : Run World) :
  (checks req st).1 = Ok (inr target) →
  in_error req = None →
  trace (middleware req st).2
  = trace (follow (Z.to_nat (maxRedirects + 1)) 0
             (first_request req target (buffered_body req)) None st).2.
Proof.
  intros Hchecks Herr.
  unfold middleware, try_catch, handle. unfold bind at 1.
  pose proof (checks_state req st) as Hst.
  destruct (checks req st) as [o st0]. cbn in Hchecks, Hst. subst o st0.
  unfold forward, buffered_body, read_body. rewrite Herr.
  destruct (bool_decide _);
    [| destruct (in_chunks req) ];
    unfold bind at 1, ret at 1;
    (unfold bind at 1;
     destruct (follow _ _ _ _ st) as [[[response |] | e] st']; by cbn).
Qed.

Lemma follow_too_many n :
  ∀ i cur resp answer (st : Run World) r w',
    i + Z.of_nat n = maxRedirects →
    redirects (S n) cur (world st) answer = Some (r, w') →
    ∃ st', follow (S n) i cur resp st = (Ok (Some r), st')
           ∧ length (trace st') = (length (trace st) + S n)%nat
           ∧ last (logs st') = Some {| ll_label := "Too many redirects"; ll_parts := [] |}
           ∧ is_redirect r = true.
Proof.
  induction n as [| n IH]; intros i cur resp answer st r w' Hi Hchain.
  - cbn [redirects] in Hchain. cbn [follow].
    unfold bind at 1, fetch at 1.
    destruct (net_fetch (request_of cur) (world st)) as [[e | r1] w1]; [done |].
    destruct (is_redirect r1) eqn:Hred; [| done].
    destruct (new_URL _ _) as [next |] eqn:Hnext; [| done].
    injection Hchain as <- <-. cbn [fst snd]. cbn zeta. rewrite Hred.
    unfold bind at 1, console at 1. cbn [fst snd].
    replace i with maxRedirects by lia. cbn.
    eexists. split; [reflexivity |]. cbn. split_and!; [| | done].
    + rewrite length_app. cbn. lia.
    + apply last_snoc.
  - remember (S n) as m eqn:Hm.
    cbn [redirects] in Hchain. cbn [follow].
    unfold bind at 1, fetch at 1.
    destruct (net_fetch (request_of cur) (world st)) as [[e | r1] w1]; [done |].
    destruct (is_redirect r1) eqn:Hred; [| done].
    destruct (new_URL _ _) as [next |] eqn:Hnext; [| done].
    cbn [fst snd]. cbn zeta.
    unfold bind at 1, console at 1. cbn [fst snd].
    assert ((i =? maxRedirects) = false) as -> by (apply Z.eqb_neq; lia).
    subst m.
    assert (Hi' : i + 1 + Z.of_nat n = maxRedirects) by lia.
    match goal with
    | |- context [follow _ _ _ _ ?s] =>
        destruct (IH (i + 1) _ (Some r1) (Some (r1, w1)) s r w' Hi' Hchain)
          as (st' & -> & Hlen & Hlog & Hr)
    end.
    exists st'. split; [done |]. cbn in Hlen. rewrite length_app in Hlen. cbn in Hlen.
    split_and!; [lia | done | done].
Qed.

(** C2, as the code has it.  When the request passes the checks and the
    upstream answers the first six requests of the loop with redirects,
    the middleware makes exactly these six calls, notes [Too many
    redirects] and relays the sixth answer, a 3xx, to the caller; no 502
    is produced. *)
Theorem too_many_redirects_relayed (req : Incoming) (target : string)
    (st : Run World) (r : Response) (w' : World) :
  (checks req st).1 = Ok (inr target) →
  in_error req = None →
  redirects 6 (first_request req target (buffered_body req)) (world st) None
  = Some (r, w') →
  ∃ st', middleware req st = (Ok (relay r), st')
         ∧ statusCode (relay r) = rs_status r
         ∧ 300 ≤ rs_status r < 400
         ∧ statusCode (relay r) ≠ 502
         ∧ length (sent (middleware req) st) = 6%nat
         ∧ last (logs st')
           = Some {| ll_label := "Too many redirects"; ll_parts := [] |}.
Proof.
  intros Hchecks Herr Hchain.
  destruct (follow_too_many 5 0 _ None None st r w' eq_refl Hchain)
    as (st' & Hfollow & Hlen & Hlog & Hred).
  pose proof (middleware_trace req target st Hchecks Herr) as Htrace.
  change (Z.to_nat (maxRedirects + 1)) with 6%nat in Htrace.
  rewrite Hfollow in Htrace. cbn [snd] in Htrace.
  assert (Hstatus : 300 ≤ rs_status r < 400).
  { unfold is_redirect in Hred. apply andb_true_iff in Hred as [Hred _].
    apply andb_true_iff in Hred as [?%Z.leb_le ?%Z.ltb_lt]. lia. }
  assert (Hcode : statusCode (relay r) = rs_status r).
  { unfold relay. by destruct (_ || _). }
  exists st'. split; [| split; [done | split; [done | split; [lia | split; [| done]]]]].
  - unfold middleware, try_catch, handle. unfold bind at 1.
    pose proof (checks_state req st) as Hst.
    destruct (checks req st) as [o st0]. cbn in Hchecks, Hst. subst o st0.
    unfold forward.
    change (Z.to_nat (maxRedirects + 1)) with 6%nat.
    assert (Hbody : (if bool_decide (method_of req ∈ ["GET"; "HEAD"])
                     then ret None else read_body req) st
                    = (Ok (buffered_body req), st)).
    { unfold buffered_body, read_body. rewrite Herr.
      destruct (bool_decide _); [done |]. by destruct (in_chunks req). }
    unfold bind at 1. rewrite Hbody.
    unfold bind at 1. by rewrite Hfollow.
  - unfold sent. rewrite Htrace, length_drop. lia.
Qed.

Lemma forward_header_content_type (acc : gmap string string) kv :
  acc !! "content-type" ≠ Some "" →
  negb (String.eqb (toLowerCase kv.1) "content-type")
  || match kv.2 with HStr _ => true | HArr _ => false end = true →
  forward_header acc kv !! "content-type" ≠ Some "".
Proof.
  intros Hacc Hkv. destruct kv as [k v]. unfold forward_header. cbn [fst snd] in Hkv.
  destruct (header_falsy v) eqn:Hfalsy; [done |].
  case_bool_decide; [done |].
  destruct (String.eqb_spec (toLowerCase k) "content-type") as [-> | Hne].
  - rewrite lookup_insert_eq. destruct v as [s | items]; [| done].
    cbn in Hfalsy |- *. intros [= ->]. done.
  - by rewrite lookup_insert_ne.
Qed.

Lemma fwdHeaders_content_type req :
  content_type_is_text req = true → fwdHeaders req !! "content-type" ≠ Some "".
Proof.
  unfold content_type_is_text, fwdHeaders. intros Htext.
  rewrite lookup_insert_ne by done.
  assert (Hgen : ∀ acc : gmap string string,
            acc !! "content-type" ≠ Some "" →
            foldl forward_header acc (in_headers req) !! "content-type" ≠ Some "").
  { induction (in_headers req) as [| kv l IHl]; intros acc Hacc; [done |].
    cbn in Htext. apply andb_true_iff in Htext as [Hkv Hl].
    cbn. apply IHl; [done |]. by apply forward_header_content_type. }
  apply Hgen. by rewrite lookup_empty.
Qed.

(** What a redirect keeps of the loop variables still holds after any
    number of redirects. *)
Lemma after_redirects_keeps (Inv : Current → Prop) :
  (∀ status url cur, Inv cur → Inv (redirected status url cur)) →
  ∀ n cur (w : World) cur' w',
    Inv cur → after_redirects n cur w = Some (cur', w') → Inv cur'.
Proof.
  intros Hkeep. induction n as [| n IH]; intros cur w cur' w' Hcur Hafter.
  - cbn in Hafter. by injection Hafter as <- <-.
  - cbn [after_redirects] in Hafter.
    destruct (net_fetch (request_of cur) w) as [[e | r1] w1]; [done |].
    destruct (is_redirect r1); [| done].
    destruct (new_URL _ _) as [next |]; [| done].
    apply (IH _ _ _ _ (Hkeep _ _ _ Hcur) Hafter).
Qed.

(** After [n] redirects, and not yet in the last iteration, a further
    redirect is followed by the updated request. *)
Lemma follow_nth n :
  ∀ todo i cur0 resp (st : Run World) cur w r w' next,
    (S n < todo)%nat →
    i + Z.of_nat n < maxRedirects →
    after_redirects n cur0 (world st) = Some (cur, w) →
    net_fetch (request_of cur) w = (Resolved r, w') →
    is_redirect r = true →
    new_URL (default "" (headers_get "location" (rs_headers r))) (Some (currentUrl cur))
    = Some next →
    ∃ before after,
      length before = n
      ∧ trace (follow todo i cur0 resp st).2
        = (trace st ++ before ++ request_of cur
                    :: request_of (redirected (rs_status r) (u_href next) cur)
                    :: after)%list.
Proof.
  induction n as [| n IH];
    intros todo i cur0 resp st cur w r w' next Htodo Hi Hafter Hnet Hred Hnext.
  - cbn in Hafter. injection Hafter as <- <-.
    destruct todo as [| [| todo]]; [lia | lia |].
    destruct (follow_second todo i cur0 resp st r w' next Hnet Hred Hnext ltac:(lia))
      as [l Hl].
    by exists [], l.
  - destruct todo as [| todo]; [lia |].
    cbn [after_redirects] in Hafter. cbn [follow].
    unfold bind at 1, fetch at 1.
    destruct (net_fetch (request_of cur0) (world st)) as [[e | r1] w1]; [done |].
    destruct (is_redirect r1) eqn:Hred1; [| done].
    destruct (new_URL _ _) as [next1 |] eqn:Hnext1; [| done].
    cbn [fst snd]. cbn zeta.
    unfold bind at 1, console at 1. cbn [fst snd].
    assert ((i =? maxRedirects) = false) as -> by (apply Z.eqb_neq; lia).
    match goal with
    | |- context [follow _ _ _ _ ?s] =>
        destruct (IH todo (i + 1) _ (Some r1) s cur w r w' next
                    ltac:(lia) ltac:(lia) Hafter Hnet Hred Hnext)
          as (before & after & Hlen & ->)
    end.
    exists (request_of cur0 :: before), after. split; [cbn; lia |].
    cbn [trace]. by rewrite <- app_assoc.
Qed.

(** C8. For a request that passes the checks, take any request of the
    loop but the last: the first one, or the one sent after [n] redirects
    ([n < 5]).  If it carries a body, it is the incoming request replayed,
    with its method and its buffered body.  When it is answered with a
    redirect, the next call goes to the resolved location; after a 301,
    302 or 303 it is a GET without body, without [content-length] and
    without [content-type]; after any other redirect status, 307 and 308
    among them, it has the method, the body and the headers of the
    request just answered. *)
Theorem redirect_follow_up (req : Incoming) (target : string) (st : Run World)
    (n : nat) (cur : Current) (w : World) (r : Response) (w' : World) (next : URL) :
  (checks req st).1 = Ok (inr target) →
  in_error req = None →
  content_type_is_text req = true →
  (n < 5)%nat →
  after_redirects n (first_request req target (buffered_body req)) (world st)
  = Some (cur, w) →
  net_fetch (request_of cur) w = (Resolved r, w') →
  is_redirect r = true →
  new_URL (default "" (headers_get "location" (rs_headers r))) (Some (currentUrl cur))
  = Some next →
  let replayed := request_of cur in
  ∃ follow_up,
    sent (middleware req) st !! n = Some replayed
    ∧ sent (middleware req) st !! S n = Some follow_up
    ∧ (rq_body replayed ≠ NoBody →
       rq_method replayed = method_of req
       ∧ ∃ body, buffered_body req = Some body ∧ rq_body replayed = RawBody body)
    ∧ rq_url follow_up = u_href next
    ∧ (rs_status r = 301 ∨ rs_status r = 302 ∨ rs_status r = 303 →
         rq_method follow_up = "GET"
         ∧ rq_body follow_up = NoBody
         ∧ rq_headers follow_up !! "content-length" = None
         ∧ rq_headers follow_up !! "content-type" = None)
    ∧ (rs_status r ≠ 301 → rs_status r ≠ 302 → rs_status r ≠ 303 →
         rq_method follow_up = rq_method replayed
         ∧ rq_body follow_up = rq_body replayed
         ∧ rq_headers follow_up = rq_headers replayed).
Proof.
  intros Hchecks Herr Htext Hn Hafter Hnet Hred Hnext replayed.
  pose proof (middleware_trace req target st Hchecks Herr) as Htrace.
  change (Z.to_nat (maxRedirects + 1)) with 6%nat in Htrace.
  destruct (follow_nth n 6 0 _ None st cur w r w' next ltac:(lia)
              ltac:(unfold maxRedirects; lia) Hafter Hnet Hred Hnext)
    as (before & after & Hlen & Hl).
  rewrite Hl in Htrace. rewrite (sent_app _ _ _ Htrace).
  assert (Hkeep : ∀ status url c,
            currentHeaders c !! "content-type" ≠ Some "" →
            currentHeaders (redirected status url c) !! "content-type" ≠ Some "").
  { intros status url c Hc. unfold redirected.
    destruct (_ || _); cbn [currentHeaders]; [| done].
    destruct (truthy_str _); [by rewrite lookup_delete_eq | by rewrite lookup_delete_ne]. }
  assert (Hfirst : currentHeaders (first_request req target (buffered_body req))
                   !! "content-type" ≠ Some "").
  { unfold first_request. cbn [currentHeaders].
    pose proof (fwdHeaders_content_type req Htext) as Hfwd.
    destruct (buffered_body req); [by rewrite lookup_insert_ne | done]. }
  pose proof (after_redirects_keeps
                (λ c, currentHeaders c !! "content-type" ≠ Some "")
                Hkeep n _ _ _ _ Hfirst Hafter) as Hct.
  cbn beta in Hct.
  eexists. split; [| split; [| split; [| split; [| split]]]].
  - rewrite <- Hlen. apply list_lookup_middle. done.
  - rewrite (cons_middle replayed), app_assoc.
    apply list_lookup_middle. rewrite length_app. cbn. lia.
  - assert (Hkeep' : ∀ status url c,
              currentBody c = None
              ∨ (currentMethod c = method_of req ∧ currentBody c = buffered_body req) →
              currentBody (redirected status url c) = None
              ∨ (currentMethod (redirected status url c) = method_of req
                 ∧ currentBody (redirected status url c) = buffered_body req)).
    { intros status url c Hc. unfold redirected.
      destruct (_ || _); cbn [currentBody currentMethod]; [by left | done]. }
    pose proof (after_redirects_keeps
                  (λ c, currentBody c = None
                        ∨ (currentMethod c = method_of req
                           ∧ currentBody c = buffered_body req))
                  Hkeep' n (first_request req target (buffered_body req))) as Hbody.
    specialize (Hbody _ _ _ (or_intror (conj eq_refl eq_refl)) Hafter).
    cbn beta in Hbody. subst replayed. unfold request_of. cbn [rq_body rq_method].
    destruct Hbody as [-> | [-> ->]]; [done |].
    destruct (buffered_body req) as [body |]; [| done]. eauto.
  - unfold redirected. by destruct (_ || _).
  - intros Hst. unfold redirected.
    assert ((rs_status r =? 301) || (rs_status r =? 302) || (rs_status r =? 303) = true)
      as -> by (destruct Hst as [-> | [-> | ->]]; done).
    cbn [request_of currentMethod currentBody currentHeaders rq_method rq_body
         rq_headers from_option].
    split; [done |]. split; [done |].
    rewrite lookup_delete_ne by done.
    destruct (currentHeaders cur !! "content-type") as [ct |] eqn:Hlook.
    + assert (truthy_str (Some ct) = true) as ->.
      { cbn. destruct (String.eqb_spec ct ""); [by subst | done]. }
      split; [| by apply lookup_delete_eq].
      rewrite lookup_delete_ne by done. apply lookup_delete_eq.
    + cbn [truthy_str]. split; [by apply lookup_delete_eq |].
      by rewrite lookup_delete_ne.
  - intros H1 H2 H3. unfold redirected.
    assert ((rs_status r =? 301) || (rs_status r =? 302) || (rs_status r =? 303) = false)
      as ->.
    { apply Z.eqb_neq in H1, H2, H3. by rewrite H1, H2, H3. }
    done.
Qed.

End ProxyFacts.

Section ProxyExamples.
Import Proxy Observe Scenario.

(** C2 as stated fails: after six redirects in a row the caller gets the
    sixth redirect itself, status 302 and the upstream body, not a 502. *)
Lemma six_redirects_not_fatal :
  ∃ res, (middleware upload_post (start (replicate 6 (Resolved (moved 302))))).1 = Ok res
         ∧ statusCode res = 302
         ∧ sr_body res = Some "moved"
         ∧ statusCode res ≠ 502.
Proof. eexists. split; [by vm_compute |]. by vm_compute. Qed.

(** Five redirects and then an answer: the answer is relayed. *)
Example five_redirects_followed :
  ∃ res, (middleware upload_post
            (start (replicate 5 (Resolved (moved 307)) ++ [Resolved arrived])%list)).1
         = Ok res
         ∧ statusCode res = 200
         ∧ sr_body res = Some "{}".
Proof. eexists. split; [by vm_compute |]. by vm_compute. Qed.

Lemma too_many_redirects_relayed_witness :
  ∃ st', middleware upload_post (start (replicate 6 (Resolved (moved 302))))
         = (Ok (relay (moved 302)), st')
         ∧ statusCode (relay (moved 302)) = 302.
Proof.
  set (st := start (replicate 6 (Resolved (moved 302)))).
  assert (H1 : (checks upload_post st).1 = Ok (inr upload_target)) by (by vm_compute).
  assert (H2 : in_error upload_post = None) by reflexivity.
  assert (H3 : redirects 6 (first_request upload_post upload_target
                              (buffered_body upload_post)) (world st) None
               = Some (moved 302, [])) by (by vm_compute).
  destruct (too_many_redirects_relayed upload_post upload_target st (moved 302) []
              H1 H2 H3) as (st' & Hrun & Hcode & _).
  exists st'. split; [exact Hrun | exact Hcode].
Defined.

Lemma redirect_follow_up_witness :
  ∃ replayed follow_up,
    sent (middleware upload_post)
         (start [Resolved (moved 307); Resolved (moved 302); Resolved arrived])
      !! 1%nat = Some replayed
    ∧ rq_method replayed = "POST" ∧ rq_body replayed = RawBody "{}"
    ∧ sent (middleware upload_post)
           (start [Resolved (moved 307); Resolved (moved 302); Resolved arrived])
        !! 2%nat = Some follow_up
    ∧ rq_method follow_up = "GET" ∧ rq_body follow_up = NoBody.
Proof.
  set (st := start [Resolved (moved 307); Resolved (moved 302); Resolved arrived]).
  set (cur := redirected 307 "https://api.example/login"
                (first_request upload_post upload_target (buffered_body upload_post))).
  assert (H1 : (checks upload_post st).1 = Ok (inr upload_target)) by (by vm_compute).
  assert (H2 : in_error upload_post = None) by reflexivity.
  assert (H3 : content_type_is_text upload_post = true) by reflexivity.
  assert (H4 : (1 < 5)%nat) by lia.
  assert (H5 : after_redirects 1
                 (first_request upload_post upload_target (buffered_body upload_post))
                 (world st)
               = Some (cur, [Resolved (moved 302); Resolved arrived]))
    by (by vm_compute).
  assert (H6 : net_fetch (request_of cur) [Resolved (moved 302); Resolved arrived]
               = (Resolved (moved 302), [Resolved arrived])) by reflexivity.
  assert (H7 : is_redirect (moved 302) = true) by (by vm_compute).
  assert (H8 : new_URL (default "" (headers_get "location" (rs_headers (moved 302))))
                 (Some (currentUrl cur))
               = new_URL "https://api.example/login" (Some (currentUrl cur)))
    by (by vm_compute).
  destruct (redirect_follow_up upload_post upload_target st 1 cur _ (moved 302)
              [Resolved arrived] _ H1 H2 H3 H4 H5 H6 H7 H8)
    as (follow_up & Hreplayed & Hfollow & _ & _ & Hdown & _).
  exists (request_of cur), follow_up.
  destruct (Hdown (or_intror (or_introl eq_refl))) as (Hm & Hb & _).
  split; [exact Hreplayed |]. split; [by vm_compute |]. split; [by vm_compute |].
  split; [exact Hfollow |]. split; [exact Hm | exact Hb].
Defined.

End ProxyExamples.

(** * Further properties *)

(** ** The two validators *)

Section ValidatorFacts.
Import Validation Upload.

(** X1. The form's own check and the exported validator agree: the form
    reports exactly the error of [validateAudioFile], and none exactly when
    that one answers valid. *)
Theorem validateFile_agrees (f : File) :
  validateFile f = error (validateAudioFile (f_name f) (f_size f) (f_type f))
  ∧ (validateFile f = None
     ↔ valid (validateAudioFile (f_name f) (f_size f) (f_type f)) = true).
Proof.
  unfold validateFile, validateAudioFile.
  change MAX_SIZE with MAX_SIZE_BYTES.
  destruct (f_size f >? MAX_SIZE_BYTES); [cbn; split; [done | by split] |].
  assert (Hsame : f_type f ∈ ACCEPTED ↔ f_type f ∈ ACCEPTED_TYPES).
  { unfold ACCEPTED, ACCEPTED_TYPES. rewrite elem_of_list_to_set. reflexivity. }
  destruct (decide (f_type f ∈ ACCEPTED_TYPES)) as [Hin | Hout].
  - rewrite (bool_decide_eq_true_2 (f_type f ∈ ACCEPTED_TYPES)) by done.
    rewrite (bool_decide_eq_true_2 (f_type f ∈ ACCEPTED)) by (by apply Hsame).
    cbn. split; [done | by split].
  - rewrite (bool_decide_eq_false_2 (f_type f ∈ ACCEPTED_TYPES)) by done.
    rewrite (bool_decide_eq_false_2 (f_type f ∈ ACCEPTED)) by (by rewrite Hsame).
    cbn. split; [done | by split].
Qed.

(** X2. Whatever the file name, a file is only ever accepted with a MIME
    type of the [audio/] family. *)
Theorem validate_only_audio (name : string) (size : Z) (type : string) :
  valid (validateAudioFile name size type) = true →
  String.prefix "audio/" type = true.
Proof.
  unfold validateAudioFile.
  destruct (size >? MAX_SIZE_BYTES); [discriminate |].
  case_bool_decide as Hty; [| discriminate]. intros _.
  unfold ACCEPTED_TYPES in Hty. apply elem_of_list_to_set in Hty.
  repeat (apply elem_of_cons in Hty as [-> | Hty]; [reflexivity |]).
  by apply elem_of_nil in Hty.
Qed.

Lemma validate_only_audio_witness : String.prefix "audio/" "audio/flac" = true.
Proof. apply (validate_only_audio "take.flac" 1 "audio/flac"). reflexivity. Defined.

End ValidatorFacts.

(** ** Session client, continued *)

Section ClientMore.
Import Client.
Context {World : Type} `{!Network World}.

(** X3. A call carries a [Content-Type] header exactly when the caller
    forces it, then with the value [application/json]; no header other
    than [Authorization] and [Content-Type] is ever set. *)
Theorem postJson_content_type (redirect : option string) (c : ApiClient)
    (path : string) (body : JsVal) (opts : option PostOptions) :
  let h := rq_headers (postJson_request redirect c path body opts) in
  h !! "Content-Type"
  = (if default false (opts ≫= forceJsonContentType)
     then Some "application/json" else None)
  ∧ ∀ k, is_Some (h !! k) → k = "Authorization" ∨ k = "Content-Type".
Proof.
  cbn zeta. unfold postJson_request, buildHeaders. cbn [rq_headers].
  set (auth := match token c with
               | Some t => if truthy_str (Some t)
                           then {[ "Authorization" := "Bearer " +:+ t ]} else ∅
               | None => ∅
               end : gmap string string).
  assert (Hauth : ∀ k, is_Some (auth !! k) → k = "Authorization").
  { intros k [v Hk]. subst auth.
    destruct (token c) as [t |]; [destruct (truthy_str _) |];
      try (by rewrite lookup_empty in Hk).
    by apply lookup_singleton_Some in Hk as [<- _]. }
  assert (Hnone : auth !! "Content-Type" = None).
  { destruct (auth !! "Content-Type") eqn:Hk; [| done].
    by specialize (Hauth _ (mk_is_Some _ _ Hk)). }
  destruct (default false _); cbn [default from_option id].
  - split.
    + apply lookup_union_Some_l. apply lookup_singleton_eq.
    + intros k [v Hk]. apply lookup_union_Some_raw in Hk as [Hk | [_ Hk]].
      * apply lookup_singleton_Some in Hk as [<- _]. by right.
      * left. apply Hauth. by eexists.
  - rewrite (left_id ∅ (∪)). split; [apply Hnone |].
    intros k Hk. rewrite (left_id ∅ (∪)) in Hk. left. by apply Hauth.
Qed.

(** X4. When the call itself is rejected (no response at all), both
    variants of [postJson] throw that very error, without status or
    details of their own. *)
Theorem postJson_rejected (c : ApiClient) (path : string) (body : JsVal)
    (opts : option PostOptions) (st : Run World) (e : JsError) (w' : World) :
  (∀ redirect, net_fetch (postJson_request redirect c path body opts) (world st)
               = (Rejected e, w')) →
  (postJson c path body opts st).1 = Throw e
  ∧ (postJson_traced c path body opts st).1 = Throw e.
Proof.
  intros Hnet. split.
  - unfold postJson. rewrite postJson_with_run. cbn zeta. by rewrite Hnet.
  - rewrite postJson_traced_run, postJson_with_run. cbn zeta. by rewrite Hnet.
Qed.

(** X5. One trailing slash of the base URL is dropped before the path is
    appended: a client made for [b/] calls the proxy for [b] followed by
    the path. *)
Theorem base_url_trailing_slash (redirect : option string) (b : string)
    (t : option string) (path : string) (body : JsVal) (opts : option PostOptions) :
  rq_url (postJson_request redirect (createApiClient (b +:+ "/") t) path body opts)
  = "/proxy?url=" +:+ encodeURIComponent (b +:+ path).
Proof.
  unfold postJson_request, createApiClient, new_ApiClient. cbn [rq_url baseUrl opt_baseUrl].
  by rewrite strip_trailing_snoc.
Qed.

End ClientMore.

(** ** Calls and log lines of composed computations *)

Section CallFacts.
Import Observe.
Context {World : Type} `{!Network World} `{!UrlApi}.

Lemma sends_only_silent {A} (P : Request → Prop) (m : M World A) :
  (∀ st, trace (m st).2 = trace st) → sends_only P m.
Proof. intros Hm st. exists []. by rewrite Hm, app_nil_r. Qed.

Lemma sends_only_ret {A} P (a : A) : sends_only P (ret a : M World A).
Proof. by apply sends_only_silent. Qed.

Lemma sends_only_throw {A} P e : sends_only P (throw e : M World A).
Proof. by apply sends_only_silent. Qed.

Lemma sends_only_pushLog P label parts :
  sends_only P (pushLog label parts : M World unit).
Proof. by apply sends_only_silent. Qed.

Lemma sends_only_fetch (P : Request → Prop) rq : P rq → sends_only P (fetch rq).
Proof.
  intros Hrq st. exists [rq]. split; [| by constructor].
  unfold fetch. by destruct (net_fetch rq (world st)) as [[e | r] w'].
Qed.

Lemma sends_only_bind {A B} P (m : M World A) (k : A → M World B) :
  sends_only P m → (∀ a, sends_only P (k a)) → sends_only P (bind m k).
Proof.
  intros Hm Hk st. unfold bind.
  destruct (Hm st) as (l1 & Ht1 & Hl1).
  destruct (m st) as [[a | e] st1]; cbn [snd] in *; [| by exists l1].
  destruct (Hk a st1) as (l2 & Ht2 & Hl2).
  exists (l1 ++ l2)%list. split; [| by apply Forall_app].
  by rewrite Ht2, Ht1, <- app_assoc.
Qed.

Lemma sends_only_try_catch {A} P (m : M World A) (h : JsError → M World A) :
  sends_only P m → (∀ e, sends_only P (h e)) → sends_only P (try_catch m h).
Proof.
  intros Hm Hh st. unfold try_catch.
  destruct (Hm st) as (l1 & Ht1 & Hl1).
  destruct (m st) as [[a | e] st1]; cbn [snd] in *; [by exists l1 |].
  destruct (Hh e st1) as (l2 & Ht2 & Hl2).
  exists (l1 ++ l2)%list. split; [| by apply Forall_app].
  by rewrite Ht2, Ht1, <- app_assoc.
Qed.

Lemma sends_only_sent {A} P (m : M World A) (st : Run World) :
  sends_only P m → Forall P (sent m st).
Proof.
  intros Hm. destruct (Hm st) as (l & Ht & Hl).
  unfold sent. by rewrite Ht, drop_app_length.
Qed.

Lemma sends_at_most_sent {A} n (m : M World A) (st : Run World) :
  sends_at_most n m → (length (sent m st) ≤ n)%nat.
Proof.
  intros Hm. destruct (Hm st) as (l & Ht & Hl).
  unfold sent. by rewrite Ht, drop_app_length.
Qed.

Lemma capped_pushLog label parts : keeps_log_capped (pushLog (World:=World) label parts).
Proof.
  intros st _. unfold pushLog. cbn [snd logs].
  rewrite length_drop. lia.
Qed.

Lemma capped_silent {A} (m : M World A) :
  (∀ st, logs (m st).2 = logs st) → keeps_log_capped m.
Proof. intros Hm st Hst. by rewrite Hm. Qed.

Lemma capped_fetch rq : keeps_log_capped (fetch (World:=World) rq).
Proof.
  apply capped_silent. intros st. unfold fetch.
  by destruct (net_fetch rq (world st)) as [[e | r] w'].
Qed.

Lemma capped_bind {A B} (m : M World A) (k : A → M World B) :
  keeps_log_capped m → (∀ a, keeps_log_capped (k a)) → keeps_log_capped (bind m k).
Proof.
  intros Hm Hk st Hst. unfold bind. specialize (Hm st Hst).
  destruct (m st) as [[a | e] st1]; cbn [snd] in *; [| done].
  by apply Hk.
Qed.

Lemma capped_try_catch {A} (m : M World A) (h : JsError → M World A) :
  keeps_log_capped m → (∀ e, keeps_log_capped (h e)) → keeps_log_capped (try_catch m h).
Proof.
  intros Hm Hh st Hst. unfold try_catch. specialize (Hm st Hst).
  destruct (m st) as [[a | e] st1]; cbn [snd] in *; [done |].
  by apply Hh.
Qed.

End CallFacts.

(** ** Forwarding proxy, continued *)

Section ProxyMore.
Import Proxy Observe.
Context {World : Type} `{!Network World} `{!UrlApi}.

Lemma sends_only_console P line : sends_only P (console line : M World unit).
Proof. by apply sends_only_silent. Qed.

(** What holds of the loop variables at the start holds of every request
    of the loop, if a redirect keeps it. *)
Lemma follow_sends (Inv : Current → Prop) (P : Request → Prop) :
  (∀ cur, Inv cur → P (request_of cur)) →
  (∀ status url cur, Inv cur → Inv (redirected status url cur)) →
  ∀ n i cur resp, Inv cur → sends_only P (follow n i cur resp).
Proof.
  intros HP Hkeep. induction n as [| n IH]; intros i cur resp Hcur.
  - apply sends_only_ret.
  - cbn [follow]. apply sends_only_bind; [by apply sends_only_fetch, HP |].
    intros r. cbn zeta. destruct (is_redirect r); [| apply sends_only_ret].
    apply sends_only_bind; [apply sends_only_console |]. intros _.
    destruct (new_URL _ _) as [next |]; [| apply sends_only_throw].
    destruct (i =? maxRedirects).
    + apply sends_only_bind; [apply sends_only_console |]. intros _.
      apply sends_only_ret.
    + apply IH. by apply Hkeep.
Qed.

Lemma follow_at_most n : ∀ i cur resp, sends_at_most n (follow n i cur resp).
Proof.
  induction n as [| n IH]; intros i cur resp st.
  - exists []. cbn. by rewrite app_nil_r.
  - cbn [follow]. unfold bind at 1, fetch at 1.
    destruct (net_fetch (request_of cur) (world st)) as [[e | r] w']; cbn zeta.
    { exists [request_of cur]. cbn. split; [done | lia]. }
    cbn [fst snd]. destruct (is_redirect r).
    2: { exists [request_of cur]. cbn. split; [done | lia]. }
    unfold bind at 1, console at 1. cbn [fst snd].
    destruct (new_URL _ _) as [next |].
    2: { exists [request_of cur]. cbn. split; [done | lia]. }
    destruct (i =? maxRedirects).
    { exists [request_of cur]. cbn. split; [done | lia]. }
    match goal with
    | |- context [follow n ?i' ?cur' ?resp' ?s] =>
        destruct (IH i' cur' resp' s) as (l & Hl & Hlen)
    end.
    exists (request_of cur :: l). rewrite Hl. cbn. rewrite <- app_assoc.
    split; [done | lia].
Qed.

(** The calls of the middleware are those of its loop, if it gets there. *)
Lemma middleware_calls req (st : Run World) :
  trace (middleware req st).2 = trace st
  ∨ ∃ target,
      (checks req st).1 = Ok (inr target)
      ∧ trace (middleware req st).2
        = trace (follow (Z.to_nat (maxRedirects + 1)) 0
                   (first_request req target (buffered_body req)) None st).2.
Proof.
  remember (trace (middleware req st).2) as t eqn:Ht.
  unfold middleware, try_catch, handle in Ht. unfold bind at 1 in Ht.
  pose proof (checks_state req st) as Hst.
  destruct (checks req st) as [[[response | target] | e] st0];
    cbn [snd] in Hst; subst st0; cbn [fst snd] in Ht; [by left | | by left].
  unfold forward, buffered_body, read_body in *.
  destruct (bool_decide _).
  - right. exists target. split; [done |].
    unfold bind at 1, ret at 1 in Ht. unfold bind at 1 in Ht.
    destruct (follow _ _ _ _ st) as [[[response |] | e] st']; by cbn in Ht.
  - destruct (in_error req) as [e |]; [by left |].
    right. exists target. split; [done |].
    destruct (in_chunks req);
      unfold bind at 1, ret at 1 in Ht; unfold bind at 1 in Ht;
      destruct (follow _ _ _ _ st) as [[[response |] | e] st']; by cbn in Ht.
Qed.

Lemma middleware_sends (Inv : Current → Prop) (P : Request → Prop) req :
  (∀ cur, Inv cur → P (request_of cur)) →
  (∀ status url cur, Inv cur → Inv (redirected status url cur)) →
  (∀ target, Inv (first_request req target (buffered_body req))) →
  ∀ st : Run World, Forall P (sent (middleware req) st).
Proof.
  intros HP Hkeep Hfirst st. unfold sent.
  destruct (middleware_calls req st) as [-> | (target & _ & ->)].
  - by rewrite drop_all.
  - apply (sends_only_sent P (follow _ 0 _ None) st).
    by apply (follow_sends Inv).
Qed.

(** The forwarded headers hold no hop-by-hop name. *)
Lemma forward_header_hop (acc : gmap string string) kv k :
  k ∈ hopByHop → acc !! k = None → forward_header acc kv !! k = None.
Proof.
  intros Hk Hacc. destruct kv as [k' v]. unfold forward_header.
  destruct (header_falsy v); [done |]. case_bool_decide as Hhop; [done |].
  rewrite lookup_insert_ne; [done |]. intros Heq. by subst k.
Qed.

Lemma fwdHeaders_hop req k :
  k ∈ hopByHop → k ≠ "accept-encoding" → fwdHeaders req !! k = None.
Proof.
  intros Hk Hne. unfold fwdHeaders. rewrite lookup_insert_ne by done.
  assert (Hgen : ∀ acc : gmap string string,
            acc !! k = None → foldl forward_header acc (in_headers req) !! k = None).
  { induction (in_headers req) as [| kv l IHl]; intros acc Hacc; [done |].
    cbn. apply IHl. by apply forward_header_hop. }
  apply Hgen, lookup_empty.
Qed.

(** X6. Every request the proxy sends upstream, redirects included, asks
    for the [identity] encoding, follows no redirect by itself, and
    carries none of the hop-by-hop or origin-revealing headers [host],
    [connection], [keep-alive], [proxy-authenticate],
    [proxy-authorization], [te], [trailer], [transfer-encoding],
    [upgrade], [origin] and [referer]. *)
Theorem upstream_headers_sanitized (req : Incoming) (st : Run World) :
  Forall (λ rq, rq_headers rq !! "accept-encoding" = Some "identity"
                ∧ rq_redirect rq = Some "manual"
                ∧ ∀ k, k ∈ hopByHop → k ≠ "accept-encoding" →
                    rq_headers rq !! k = None)
         (sent (middleware req) st).
Proof.
  apply (middleware_sends
           (λ cur, currentHeaders cur !! "accept-encoding" = Some "identity"
                   ∧ ∀ k, k ∈ hopByHop → k ≠ "accept-encoding" →
                       currentHeaders cur !! k = None)).
  - intros cur [Hid Hhop]. by split_and!.
  - intros status url cur [Hid Hhop]. unfold redirected.
    destruct (_ || _); cbn [currentHeaders]; [| done].
    destruct (truthy_str _); split.
    + by rewrite !lookup_delete_ne.
    + intros k Hk Hne. apply lookup_delete_None. right.
      apply lookup_delete_None. right. by apply Hhop.
    + by rewrite lookup_delete_ne.
    + intros k Hk Hne. apply lookup_delete_None. right. by apply Hhop.
  - intros target. unfold first_request. cbn [currentHeaders].
    assert (Hbase : fwdHeaders req !! "accept-encoding" = Some "identity")
      by apply lookup_insert_eq.
    assert (Hlen : "content-length" ∉ hopByHop) by (by vm_compute).
    destruct (buffered_body req); split; try done.
    + by rewrite lookup_insert_ne.
    + intros k Hk Hne. rewrite lookup_insert_ne by (by intros <-).
      by apply fwdHeaders_hop.
    + intros k Hk Hne. by apply fwdHeaders_hop.
Qed.

(** X7. One incoming request leads to at most six upstream requests. *)
Theorem upstream_calls_bounded (req : Incoming) (st : Run World) :
  (length (sent (middleware req) st) ≤ 6)%nat.
Proof.
  unfold sent.
  destruct (middleware_calls req st) as [-> | (target & _ & ->)].
  - rewrite drop_all. cbn. lia.
  - apply (sends_at_most_sent 6 (follow 6 0 _ None) st), follow_at_most.
Qed.

(** X8. The proxy never sends a GET or a HEAD with a body; a request
    that has a body has the method and the buffered body of the incoming
    request. *)
Theorem upstream_body_only_with_original_method (req : Incoming) (st : Run World) :
  Forall (λ rq, (rq_method rq ∈ ["GET"; "HEAD"] → rq_body rq = NoBody)
                ∧ (rq_body rq ≠ NoBody →
                     rq_method rq = method_of req
                     ∧ ∃ b, buffered_body req = Some b ∧ rq_body rq = RawBody b))
         (sent (middleware req) st).
Proof.
  assert (Hbuf : ∀ b, buffered_body req = Some b → method_of req ∉ ["GET"; "HEAD"]).
  { unfold buffered_body. intros b. by case_bool_decide. }
  apply (middleware_sends
           (λ cur, currentBody cur = None
                   ∨ (currentMethod cur = method_of req
                      ∧ currentBody cur = buffered_body req))).
  - intros cur [Hnone | [Hm Hb]]; unfold request_of; cbn [rq_method rq_body].
    + rewrite Hnone. by split.
    + rewrite Hm, Hb. destruct (buffered_body req) as [b |] eqn:Hbody; [| by split].
      split; [intros Hin; by destruct (Hbuf b eq_refl) | eauto].
  - intros status url cur Hcur. unfold redirected.
    destruct (_ || _); cbn [currentBody currentMethod]; [by left | done].
  - intros target. right. by split.
Qed.

Lemma x_target_base_state req (st : Run World) : (x_target_base req st).2 = st.
Proof. unfold x_target_base. by repeat case_match. Qed.

(** X9. A request without a [url] parameter (absent or empty) is answered
    400 [Missing url param], and one whose target does not start with
    [http://] or [https://] is answered 400 [Invalid target url]; in both
    cases nothing is sent upstream and nothing else changes. *)
Theorem bad_target_rejected (req : Incoming) (st : Run World) (url : URL)
    (base : option string) :
  new_URL (default "" (in_url req)) (Some "http://localhost") = Some url →
  (x_target_base req st).1 = Ok base →
  (truthy_str (searchParams_get "url" url) = false →
     middleware req st = (Ok (respond 400 "Missing url param"), st))
  ∧ (∀ target, searchParams_get "url" url = Some target → target ≠ "" →
       is_http target = false →
       middleware req st = (Ok (respond 400 "Invalid target url"), st)).
Proof.
  intros Hurl Hbase.
  pose proof (x_target_base_state req st) as Hst.
  destruct (x_target_base req st) as [o st0] eqn:Hx. cbn in Hbase, Hst. subst o st0.
  split.
  - intros Hmissing.
    unfold middleware, try_catch, handle. unfold bind at 1. unfold checks.
    rewrite Hurl. unfold bind at 1. rewrite Hx, Hmissing. reflexivity.
  - intros target Htarget Hne Hhttp.
    unfold middleware, try_catch, handle. unfold bind at 1. unfold checks.
    rewrite Hurl. unfold bind at 1. rewrite Hx, Htarget.
    rewrite (truthy_str_nonempty _ Hne). cbn [negb default from_option id].
    rewrite Hhttp. reflexivity.
Qed.

Lemma strip_prefix_length p s rest :
  strip_prefix p s = Some rest →
  String.length s = (String.length p + String.length rest)%nat.
Proof.
  revert s. induction p as [| a p IH]; intros [| b s]; cbn; try done.
  - by intros [= <-].
  - by intros [= <-].
  - destruct (Ascii.eqb a b); [| done]. intros Hrest. by rewrite (IH _ Hrest).
Qed.

Lemma white_prefix_length s rest :
  white_prefix s = Some rest → (String.length rest < String.length s)%nat.
Proof.
  unfold white_prefix.
  assert (Hgen : ∀ l, Forall (λ p, p ≠ "") l →
            foldr (λ p found, match strip_prefix p s with
                              | Some rest => Some rest
                              | None => found
                              end) None l = Some rest →
            (String.length rest < String.length s)%nat).
  { induction l as [| p l IH]; intros Hl; [done |].
    apply Forall_cons in Hl as [Hp Hl]. cbn [foldr].
    destruct (strip_prefix p s) as [rest' |] eqn:Hs; [| by apply IH].
    intros [= ->]. apply strip_prefix_length in Hs.
    destruct p; [by destruct Hp |]. cbn in Hs. lia. }
  apply Hgen. unfold white_space. cbn.
  repeat (constructor; [discriminate |]). constructor.
Qed.

(** The bytes of a string are fuel enough for [trimStart]: what it
    returns starts with no white space. *)
Lemma trimStart_done s : white_prefix (trimStart s) = None.
Proof.
  unfold trimStart.
  assert (Hgen : ∀ fuel s', (String.length s' ≤ fuel)%nat →
            white_prefix (skip_white fuel s') = None).
  { induction fuel as [| fuel IH]; intros s' Hs'.
    - destruct s'; [done | cbn in Hs'; lia].
    - cbn [skip_white]. destruct (white_prefix s') as [rest |] eqn:Hw; [| done].
      apply IH. apply white_prefix_length in Hw. lia. }
  by apply Hgen.
Qed.

(** X10. With an [X-Target-Base] header, a target of another origin is
    answered 403 and a target or base that does not parse as a URL is
    answered 400 [Invalid X-Target-Base]; nothing is sent upstream. *)
Theorem pinned_origin_enforced (req : Incoming) (st : Run World) (url : URL)
    (target base : string) :
  new_URL (default "" (in_url req)) (Some "http://localhost") = Some url →
  (x_target_base req st).1 = Ok (Some base) →
  base ≠ "" →
  searchParams_get "url" url = Some target →
  is_http target = true →
  (∀ targetUrl baseUrl,
     new_URL target None = Some targetUrl → new_URL base None = Some baseUrl →
     u_origin targetUrl ≠ u_origin baseUrl →
     middleware req st
     = (Ok (respond 403 "Target not allowed for provided X-Target-Base"), st))
  ∧ (new_URL target None = None ∨ new_URL base None = None →
     middleware req st = (Ok (respond 400 "Invalid X-Target-Base"), st)).
Proof.
  intros Hurl Hbase Hne Htarget Hhttp.
  pose proof (x_target_base_state req st) as Hst.
  destruct (x_target_base req st) as [o st0] eqn:Hx. cbn in Hbase, Hst. subst o st0.
  assert (Htruthy : truthy_str (Some target) = true).
  { destruct target; [discriminate Hhttp | done]. }
  assert (Hrun : middleware req st
                 = try_catch
                     (bind
                        (if truthy_str (Some base) then
                           match new_URL target None, new_URL base None with
                           | Some targetUrl, Some baseUrl =>
                               if String.eqb (u_origin targetUrl) (u_origin baseUrl)
                               then ret (inr target)
                               else ret (inl (respond 403 "Target not allowed for provided X-Target-Base"))
                           | _, _ => ret (inl (respond 400 "Invalid X-Target-Base"))
                           end
                         else ret (inr target))
                        (λ checked, match checked with
                                    | inl response => ret response
                                    | inr target => forward req target
                                    end))
                     (λ err,
                        console ("Error: " +:+ err_message err) ;;;
                        ret {| statusCode := 502;
                               sr_headers := {[ "content-type" := "text/plain; charset=utf-8" ]};
                               sr_body := Some ("Proxy error: " +:+
                                                (if String.eqb (err_message err) "" then "unknown"
                                                 else err_message err)) |}) st).
  { unfold middleware, try_catch, handle. unfold bind at 1 3. unfold checks.
    rewrite Hurl. unfold bind at 1. rewrite Hx, Htarget, Htruthy.
    cbn [negb default from_option id]. rewrite Hhttp. reflexivity. }
  rewrite Hrun. rewrite (truthy_str_nonempty _ Hne). unfold try_catch, bind at 1.
  split.
  - intros targetUrl baseUrl -> -> Horigin.
    destruct (String.eqb_spec (u_origin targetUrl) (u_origin baseUrl));
      [done | reflexivity].
  - intros [-> | Hb]; [reflexivity |]. rewrite Hb.
    destruct (new_URL target None); reflexivity.
Qed.

Lemma headers_get_lower n1 n2 hs :
  toLowerCase n1 = toLowerCase n2 → headers_get n1 hs = headers_get n2 hs.
Proof. unfold headers_get. by intros ->. Qed.

Lemma headers_get_found kv name hs :
  kv ∈ hs → toLowerCase kv.1 = toLowerCase name → is_Some (headers_get name hs).
Proof.
  intros Hin Hname. unfold headers_get.
  assert (Hf : kv ∈ filter (λ kv, toLowerCase kv.1 = toLowerCase name) hs)
    by (by apply list_elem_of_filter).
  destruct (filter _ hs); [by apply elem_of_nil in Hf | by eexists].
Qed.

Lemma headers_get_absent name hs :
  (∀ kv, kv ∈ hs → toLowerCase kv.1 ≠ toLowerCase name) → headers_get name hs = None.
Proof.
  intros Hno. unfold headers_get.
  destruct (filter _ hs) as [| kv l] eqn:Hf; [done |].
  assert (Hin : kv ∈ filter (λ kv, toLowerCase kv.1 = toLowerCase name) hs)
    by (rewrite Hf; by left).
  apply list_elem_of_filter in Hin as [Hk Hin]. by destruct (Hno kv Hin).
Qed.

Lemma lower_ascii_idem c : lower_ascii (lower_ascii c) = lower_ascii c.
Proof. by destruct c as [[] [] [] [] [] [] [] []]. Qed.

Lemma toLowerCase_idem s : toLowerCase (toLowerCase s) = toLowerCase s.
Proof.
  induction s as [| c s IH]; [done |]. cbn. by rewrite lower_ascii_idem, IH.
Qed.

(** The callback touches the name it is called with, and no name it
    leaves out. *)
Lemma relay_header_other acc kv k :
  toLowerCase kv.1 ≠ k → relay_header acc kv !! k = acc !! k.
Proof.
  destruct kv as [key value]. cbn [fst]. intros Hne. unfold relay_header.
  case_bool_decide; [done |]. by rewrite lookup_insert_ne.
Qed.

Lemma relay_header_left_out acc kv k :
  k ∈ ["transfer-encoding"; "content-encoding"; "content-length"] →
  relay_header acc kv !! k = acc !! k.
Proof.
  destruct kv as [key value]. intros Hk. unfold relay_header.
  case_bool_decide as Hd; [done |]. rewrite lookup_insert_ne; [done |].
  intros Heq. by rewrite Heq in Hd.
Qed.

Lemma relay_header_set acc kv k :
  toLowerCase kv.1 = k →
  k ∉ ["transfer-encoding"; "content-encoding"; "content-length"] →
  relay_header acc kv !! k = Some kv.2.
Proof.
  destruct kv as [key value]. cbn [fst snd]. intros Heq Hk. unfold relay_header.
  rewrite Heq. rewrite bool_decide_eq_false_2 by done. apply lookup_insert_eq.
Qed.

Lemma relay_fold_other k l :
  ∀ acc, Forall (λ kv, toLowerCase kv.1 ≠ k) l →
    foldl relay_header acc l !! k = acc !! k.
Proof.
  induction l as [| kv l IH]; intros acc Hl; [done |].
  apply Forall_cons in Hl as [Hkv Hl]. cbn [foldl].
  rewrite IH by done. by apply relay_header_other.
Qed.

(** Entries of one name: the last one stays. *)
Lemma relay_fold_same k l :
  k ∉ ["transfer-encoding"; "content-encoding"; "content-length"] →
  ∀ acc, Forall (λ kv, toLowerCase kv.1 = k) l →
    foldl relay_header acc l !! k = from_option Some (acc !! k) (last l.*2).
Proof.
  intros Hk. induction l as [| kv l IH]; intros acc Hl; [done |].
  apply Forall_cons in Hl as [Hkv Hl]. cbn [foldl].
  rewrite IH by done. rewrite (relay_header_set acc kv k Hkv Hk).
  destruct l as [| kv' l]; [done |].
  cbn [fmap list_fmap]. rewrite last_cons_cons.
  destruct (last (kv'.2 :: l.*2)) as [v |] eqn:Hlast; [done |].
  by apply last_None in Hlast.
Qed.

Lemma headers_of_name hs name :
  Forall (λ kv, kv.1 = name) (headers_of hs name).
Proof.
  unfold headers_of. destruct (String.eqb name "set-cookie").
  - apply Forall_fmap, Forall_true. by intros kv.
  - by repeat constructor.
Qed.

Lemma relay_fold_names hs k :
  toLowerCase k = k →
  k ∉ ["transfer-encoding"; "content-encoding"; "content-length"] →
  ∀ names acc,
    NoDup names → Forall (λ n, toLowerCase n = n) names →
    foldl relay_header acc (names ≫= headers_of hs) !! k
    = if bool_decide (k ∈ names)
      then from_option Some (acc !! k) (last (headers_of hs k).*2)
      else acc !! k.
Proof.
  intros Hlow Hk. induction names as [| n names IH]; intros acc Hnd Hnames; [done |].
  apply NoDup_cons in Hnd as [Hn Hnd]. apply Forall_cons in Hnames as [Hnl Hnames].
  change ((n :: names) ≫= headers_of hs)
    with (headers_of hs n ++ (names ≫= headers_of hs))%list.
  rewrite foldl_app, IH by done.
  destruct (decide (n = k)) as [-> | Hne].
  - rewrite (bool_decide_eq_false_2 (k ∈ names)) by done.
    rewrite (bool_decide_eq_true_2 (k ∈ k :: names)) by (by left).
    apply relay_fold_same; [done |].
    eapply Forall_impl; [apply headers_of_name |]. cbn. by intros kv ->.
  - assert (Hother : foldl relay_header acc (headers_of hs n) !! k = acc !! k).
    { apply relay_fold_other.
      eapply Forall_impl; [apply headers_of_name |]. cbn. intros kv ->. by rewrite Hnl. }
    rewrite Hother. destruct (decide (k ∈ names)) as [Hin | Hout].
    + rewrite !bool_decide_eq_true_2; [done | by right | done].
    + rewrite !bool_decide_eq_false_2; [done | | done].
      intros [Heq | Hin]%elem_of_cons; [by subst | done].
Qed.

Lemma headers_names_spec hs :
  NoDup (headers_names hs)
  ∧ Forall (λ n, toLowerCase n = n) (headers_names hs)
  ∧ ∀ k, k ∈ headers_names hs ↔ ∃ kv, kv ∈ hs ∧ toLowerCase kv.1 = k.
Proof.
  unfold headers_names.
  assert (Hin : ∀ k, k ∈ merge_sort String.le
                          (remove_dups ((λ kv, toLowerCase kv.1) <$> hs))
                     ↔ ∃ kv, kv ∈ hs ∧ toLowerCase kv.1 = k).
  { intros k. rewrite merge_sort_Permutation, elem_of_remove_dups, list_elem_of_fmap.
    split; intros (kv & H1 & H2); by exists kv. }
  split; [| split; [| done]].
  - rewrite merge_sort_Permutation. apply NoDup_remove_dups.
  - apply Forall_forall. intros n (kv & _ & <-)%Hin. apply toLowerCase_idem.
Qed.

Lemma relayed_headers_lookup hs k :
  toLowerCase k = k →
  k ∉ ["transfer-encoding"; "content-encoding"; "content-length"] →
  relayed_headers hs !! k
  = if String.eqb k "set-cookie"
    then last (filter (λ kv, toLowerCase kv.1 = k) hs).*2
    else headers_get k hs.
Proof.
  intros Hlow Hk. unfold relayed_headers, headers_entries.
  destruct (headers_names_spec hs) as (Hnd & Hnames & Hin).
  rewrite (relay_fold_names hs k Hlow Hk _ ∅ Hnd Hnames). rewrite lookup_empty.
  assert (Habsent : k ∉ headers_names hs →
            filter (λ kv, toLowerCase kv.1 = k) hs = []).
  { intros Hout. destruct (filter _ hs) as [| kv l] eqn:Hf; [done |].
    assert (Hkv : kv ∈ filter (λ kv, toLowerCase kv.1 = k) hs) by (rewrite Hf; by left).
    apply list_elem_of_filter in Hkv as [Heq Hkv]. destruct Hout. apply Hin. by exists kv. }
  unfold headers_of. destruct (String.eqb k "set-cookie").
  - case_bool_decide as Hk'.
    + rewrite <- list_fmap_compose.
      by destruct (last _).
    + by rewrite (Habsent Hk').
  - case_bool_decide as Hk'.
    + apply Hin in Hk' as (kv & Hkv & Heq).
      destruct (headers_get_found kv k hs Hkv) as [v ->]; [by rewrite Heq, Hlow | done].
    + symmetry. unfold headers_get. rewrite Hlow. by rewrite (Habsent Hk').
Qed.

Lemma relayed_headers_left_out hs k :
  k ∈ ["transfer-encoding"; "content-encoding"; "content-length"] →
  relayed_headers hs !! k = None.
Proof.
  intros Hk. unfold relayed_headers.
  assert (Hgen : ∀ l (acc : gmap string string),
            acc !! k = None → foldl relay_header acc l !! k = None).
  { induction l as [| kv l IH]; intros acc Hacc; [done |].
    cbn [foldl]. apply IH. by rewrite relay_header_left_out. }
  apply Hgen, lookup_empty.
Qed.

(** X11. The response given back has the upstream status; its
    [content-encoding] and [transfer-encoding] are never passed on; every
    other upstream header comes back with its (combined) value, except
    [set-cookie], of which only the last value comes back; and
    [content-length] is the length of the body actually sent, or absent
    together with the body for a 204 or a 304. *)
Theorem relay_rewrites_framing (r : Response) :
  statusCode (relay r) = rs_status r
  ∧ sr_headers (relay r) !! "content-encoding" = None
  ∧ sr_headers (relay r) !! "transfer-encoding" = None
  ∧ (∀ k, toLowerCase k = k →
       k ∉ ["transfer-encoding"; "content-encoding"; "content-length"] →
       k ≠ "set-cookie" →
       sr_headers (relay r) !! k = headers_get k (rs_headers r))
  ∧ sr_headers (relay r) !! "set-cookie"
    = last (filter (λ kv, toLowerCase kv.1 = "set-cookie") (rs_headers r)).*2
  ∧ (if (rs_status r =? 204) || (rs_status r =? 304)
     then sr_body (relay r) = None
          ∧ sr_headers (relay r) !! "content-length" = None
     else sr_body (relay r) = Some (rs_text r)
          ∧ sr_headers (relay r) !! "content-length"
            = Some (pretty (String.length (rs_text r)))).
Proof.
  unfold relay.
  assert (Hce : relayed_headers (rs_headers r) !! "content-encoding" = None)
    by (apply relayed_headers_left_out; set_solver).
  assert (Hte : relayed_headers (rs_headers r) !! "transfer-encoding" = None)
    by (apply relayed_headers_left_out; set_solver).
  assert (Hcl : relayed_headers (rs_headers r) !! "content-length" = None)
    by (apply relayed_headers_left_out; set_solver).
  assert (Hkept : ∀ k, toLowerCase k = k →
            k ∉ ["transfer-encoding"; "content-encoding"; "content-length"] →
            k ≠ "set-cookie" →
            relayed_headers (rs_headers r) !! k = headers_get k (rs_headers r)).
  { intros k Hlow Hk Hne. rewrite relayed_headers_lookup by done.
    by rewrite (proj2 (String.eqb_neq k "set-cookie")). }
  assert (Hcookie : relayed_headers (rs_headers r) !! "set-cookie"
            = last (filter (λ kv, toLowerCase kv.1 = "set-cookie") (rs_headers r)).*2).
  { rewrite relayed_headers_lookup; [done | done |].
    intros Hin. by repeat (apply elem_of_cons in Hin as [? | Hin]; [done |]);
      apply elem_of_nil in Hin. }
  destruct (_ || _); cbn [statusCode sr_headers sr_body].
  - by split_and!.
  - split_and!; try done.
    + by rewrite lookup_insert_ne.
    + by rewrite lookup_insert_ne.
    + intros k Hlow Hk Hne. rewrite lookup_insert_ne by set_solver. by apply Hkept.
    + by rewrite lookup_insert_ne.
    + apply lookup_insert_eq.
Qed.

(** How the middleware ends, from how its loop ends. *)
Lemma middleware_of_follow req target (st : Run World) :
  (checks req st).1 = Ok (inr target) →
  in_error req = None →
  middleware req st
  = match follow (Z.to_nat (maxRedirects + 1)) 0
            (first_request req target (buffered_body req)) None st with
    | (Ok (Some r), st') => (Ok (relay r), st')
    | (Ok None, st') =>
        bind (console ("Error: " +:+ "No response from upstream"))
          (λ _, ret {| statusCode := 502;
                       sr_headers := {[ "content-type" := "text/plain; charset=utf-8" ]};
                       sr_body := Some ("Proxy error: " +:+ "No response from upstream") |})
          st'
    | (Throw e, st') =>
        bind (console ("Error: " +:+ err_message e))
          (λ _, ret {| statusCode := 502;
                       sr_headers := {[ "content-type" := "text/plain; charset=utf-8" ]};
                       sr_body := Some ("Proxy error: " +:+
                                        (if String.eqb (err_message e) "" then "unknown"
                                         else err_message e)) |})
          st'
    end.
Proof.
  intros Hchecks Herr.
  unfold middleware, try_catch, handle. unfold bind at 1.
  pose proof (checks_state req st) as Hst.
  destruct (checks req st) as [o st0]. cbn in Hchecks, Hst. subst o st0.
  unfold forward.
  assert (Hbody : (if bool_decide (method_of req ∈ ["GET"; "HEAD"])
                   then ret None else read_body req) st
                  = (Ok (buffered_body req), st)).
  { unfold buffered_body, read_body. rewrite Herr.
    destruct (bool_decide _); [done |]. by destruct (in_chunks req). }
  unfold bind at 1. rewrite Hbody. unfold bind at 1.
  by destruct (follow _ _ _ _ st) as [[[r |] | e] st'].
Qed.

Lemma follow_after n :
  ∀ todo i cur resp (st : Run World) cur' w' r w'',
    (n < todo)%nat →
    i + Z.of_nat n ≤ maxRedirects →
    after_redirects n cur (world st) = Some (cur', w') →
    net_fetch (request_of cur') w' = (Resolved r, w'') →
    is_redirect r = false →
    ∃ st', follow todo i cur resp st = (Ok (Some r), st')
           ∧ length (trace st') = (length (trace st) + S n)%nat.
Proof.
  induction n as [| n IH]; intros todo i cur resp st cur' w' r w'' Htodo Hi Hafter Hnet Hlast.
  - destruct todo as [| todo]; [lia |].
    cbn in Hafter. injection Hafter as <- <-.
    cbn [follow]. unfold bind at 1, fetch at 1. rewrite Hnet. cbn [fst snd].
    cbn zeta. rewrite Hlast. eexists. split; [reflexivity |].
    cbn. rewrite length_app. cbn. lia.
  - destruct todo as [| todo]; [lia |].
    cbn [after_redirects] in Hafter. cbn [follow].
    unfold bind at 1, fetch at 1.
    destruct (net_fetch (request_of cur) (world st)) as [[e | r1] w1]; [done |].
    destruct (is_redirect r1) eqn:Hred; [| done].
    destruct (new_URL _ _) as [next |] eqn:Hnext; [| done].
    cbn [fst snd]. cbn zeta.
    unfold bind at 1, console at 1. cbn [fst snd].
    assert ((i =? maxRedirects) = false) as -> by (apply Z.eqb_neq; lia).
    assert (Hi' : i + 1 + Z.of_nat n ≤ maxRedirects) by lia.
    assert (Htodo' : (n < todo)%nat) by lia.
    match goal with
    | |- context [follow _ _ _ _ ?s] =>
        destruct (IH todo (i + 1) _ (Some r1) s cur' w' r w'' Htodo' Hi' Hafter Hnet Hlast)
          as (st' & -> & Hlen)
    end.
    exists st'. split; [done |]. cbn in Hlen. rewrite length_app in Hlen. cbn in Hlen.
    lia.
Qed.

(** X12. Up to five redirects are followed: when the upstream answers [n]
    requests, [n ≤ 5], with redirects and the next one with anything else
    (a 3xx without location included), that last answer is relayed after
    exactly [n + 1] upstream requests. *)
Theorem redirects_followed (req : Incoming) (target : string) (st : Run World)
    (n : nat) (cur : Current) (w w' : World) (r : Response) :
  (checks req st).1 = Ok (inr target) →
  in_error req = None →
  (n ≤ 5)%nat →
  after_redirects n (first_request req target (buffered_body req)) (world st)
  = Some (cur, w) →
  net_fetch (request_of cur) w = (Resolved r, w') →
  is_redirect r = false →
  ∃ st', middleware req st = (Ok (relay r), st')
         ∧ length (sent (middleware req) st) = S n.
Proof.
  intros Hchecks Herr Hn Hafter Hnet Hlast.
  destruct (follow_after n 6 0 _ None st cur w r w' ltac:(lia)
              ltac:(unfold maxRedirects; lia) Hafter Hnet Hlast)
    as (st' & Hfollow & Hlen).
  pose proof (middleware_of_follow req target st Hchecks Herr) as Hrun.
  change (Z.to_nat (maxRedirects + 1)) with 6%nat in Hrun.
  rewrite Hfollow in Hrun.
  exists st'. split; [done |].
  unfold sent. rewrite Hrun. cbn [snd]. rewrite length_drop. lia.
Qed.

(** X13. When the call to the upstream is rejected, or a redirect names a
    location that does not resolve, the caller gets a 502 in plain text
    whose body is [Proxy error: ] followed by the error's message
    ([unknown] if it has none), after that one upstream request. *)
Theorem upstream_failure_is_502 (req : Incoming) (target : string) (st : Run World) :
  (checks req st).1 = Ok (inr target) →
  in_error req = None →
  let first := request_of (first_request req target (buffered_body req)) in
  let failed (message : string) (res : ServerResponse) :=
    res = {| statusCode := 502;
             sr_headers := {[ "content-type" := "text/plain; charset=utf-8" ]};
             sr_body := Some ("Proxy error: " +:+
                              (if String.eqb message "" then "unknown" else message)) |} in
  (∀ e w', net_fetch first (world st) = (Rejected e, w') →
     ∃ res st', middleware req st = (Ok res, st')
                ∧ failed (err_message e) res
                ∧ sent (middleware req) st = [first])
  ∧ (∀ r w', net_fetch first (world st) = (Resolved r, w') →
       is_redirect r = true →
       new_URL (default "" (headers_get "location" (rs_headers r))) (Some target) = None →
       ∃ res st', middleware req st = (Ok res, st')
                  ∧ failed "Invalid URL" res
                  ∧ sent (middleware req) st = [first]).
Proof.
  intros Hchecks Herr first failed.
  pose proof (middleware_of_follow req target st Hchecks Herr) as Hrun.
  change (Z.to_nat (maxRedirects + 1)) with 6%nat in Hrun.
  split.
  - intros e w' Hnet.
    assert (Hfollow : follow 6 0 (first_request req target (buffered_body req)) None st
                      = (Throw e, {| world := w'; trace := (trace st ++ [first])%list;
                                     logs := logs st |})).
    { cbn [follow]. unfold bind at 1, fetch at 1. fold first. by rewrite Hnet. }
    rewrite Hfollow in Hrun. unfold bind, console, ret in Hrun. cbn in Hrun.
    do 2 eexists. split; [exact Hrun |]. split; [done |].
    unfold sent. rewrite Hrun. cbn. apply drop_app_length.
  - intros r w' Hnet Hred Hloc.
    assert (Hfollow : ∃ lg, follow 6 0 (first_request req target (buffered_body req))
                              None st
                            = (Throw TypeError_invalid_url,
                               {| world := w'; trace := (trace st ++ [first])%list;
                                  logs := lg |})).
    { cbn [follow]. unfold bind at 1, fetch at 1. fold first. rewrite Hnet.
      cbn [fst snd]. cbn zeta. rewrite Hred.
      unfold bind at 1, console at 1. cbn [fst snd currentUrl first_request].
      rewrite Hloc. by eexists. }
    destruct Hfollow as [lg Hfollow].
    rewrite Hfollow in Hrun. unfold bind, console, ret in Hrun. cbn in Hrun.
    do 2 eexists. split; [exact Hrun |]. split; [done |].
    unfold sent. rewrite Hrun. cbn. apply drop_app_length.
Qed.

(** X14. When the body of the incoming request cannot be read, the caller
    gets the 502 with that error's message and nothing is sent upstream. *)
Theorem unreadable_body_is_502 (req : Incoming) (target : string) (st : Run World)
    (e : JsError) :
  (checks req st).1 = Ok (inr target) →
  method_of req ∉ ["GET"; "HEAD"] →
  in_error req = Some e →
  ∃ st', middleware req st
         = (Ok {| statusCode := 502;
                  sr_headers := {[ "content-type" := "text/plain; charset=utf-8" ]};
                  sr_body := Some ("Proxy error: " +:+
                                   (if String.eqb (err_message e) "" then "unknown"
                                    else err_message e)) |}, st')
         ∧ sent (middleware req) st = [].
Proof.
  intros Hchecks Hmethod Herr.
  assert (Hrun : middleware req st
                 = (Ok {| statusCode := 502;
                          sr_headers := {[ "content-type" := "text/plain; charset=utf-8" ]};
                          sr_body := Some ("Proxy error: " +:+
                                           (if String.eqb (err_message e) "" then "unknown"
                                            else err_message e)) |},
                    {| world := world st; trace := trace st;
                       logs := (logs st ++ [{| ll_label := "Error: " +:+ err_message e;
                                               ll_parts := [] |}])%list |})).
  { unfold middleware, try_catch, handle. unfold bind at 1.
    pose proof (checks_state req st) as Hst.
    destruct (checks req st) as [o st0]. cbn in Hchecks, Hst. subst o st0.
    unfold forward. rewrite bool_decide_eq_false_2 by done.
    unfold bind at 1, read_body. by rewrite Herr. }
  eexists. split; [exact Hrun |].
  unfold sent. rewrite Hrun. cbn. apply drop_all.
Qed.

End ProxyMore.

(** ** Upload orchestrator, continued *)

Section UploadMore.
Import Upload Observe.
Context {World : Type} `{!Network World} `{!UrlApi}.
Context (props : UploadFormProps).

Lemma sends_only_now P : sends_only P (now : M World Z).
Proof. by apply sends_only_silent. Qed.

Lemma sends_only_member P data k : sends_only P (member data k : M World JsOpt).
Proof. unfold member. destruct data; by apply sends_only_silent. Qed.

Lemma sends_only_member_at P data i : sends_only P (member_at data i : M World JsOpt).
Proof. unfold member_at. destruct data as [[] |]; by apply sends_only_silent. Qed.

(** Splits a computation into its steps, leaving what must hold of each
    request handed to [fetch]. *)
Ltac calls :=
  repeat first
    [ apply sends_only_ret | apply sends_only_throw | apply sends_only_pushLog
    | apply sends_only_now | apply sends_only_member | apply sends_only_member_at
    | apply sends_only_fetch
    | apply sends_only_bind; [| intros ?]
    | apply sends_only_try_catch; [| intros ?]
    | case_match ].

Lemma put_parts_calls P parts f urlsData :
  (∀ url lo hi, P (put_request url (FileSlice lo hi))) →
  ∀ todo i ups, sends_only P (put_parts todo i parts f urlsData ups : M World _).
Proof.
  intros HP. induction todo as [| todo IH]; intros i ups; cbn [put_parts].
  - apply sends_only_ret.
  - apply sends_only_bind; [| intros part; apply IH].
    unfold put_part, chunk_of, slice. calls. apply HP.
Qed.

Lemma startSimpleMultipart_calls f :
  sends_only (component_call props) (startSimpleMultipart props f).
Proof.
  assert (Hpost : ∀ body, component_call props (post_upload_large props body))
    by (intros body; left; by eexists).
  assert (Hanalyze : ∀ id, component_call props (analyze_request props id))
    by (intros id; right; left; by eexists).
  unfold startSimpleMultipart.
  apply sends_only_bind; [unfold phase_start; calls; apply Hpost |].
  intros [uploadId key].
  apply sends_only_bind; [unfold phase_get_urls; calls; apply Hpost |].
  intros urlsData.
  apply sends_only_bind.
  { apply put_parts_calls. intros url lo hi. right; right. by do 3 eexists. }
  intros ups.
  apply sends_only_bind; [unfold phase_complete; calls; apply Hpost |].
  intros completeData. unfold phase_fallback. calls; apply Hanalyze.
Qed.

(** X15. In every run, each PUT goes out bare: no header (so no bearer
    token), no credentials, a slice of the file as body; every other
    call is a POST through the proxy, to the upload or to the analysis
    endpoint of the configured domain, with credentials included and
    with the [Authorization] header exactly when the token is non-empty. *)
Theorem calls_authenticated_only_via_proxy (f : File) (st : Run World) :
  Forall (λ rq,
            (rq_method rq = "PUT" ∧ rq_headers rq = ∅ ∧ rq_credentials rq = None
             ∧ ∃ lo hi, rq_body rq = FileSlice lo hi)
            ∨ (rq_method rq = "POST" ∧ rq_credentials rq = Some "include"
               ∧ (rq_url rq = "/proxy?url=" +:+
                              encodeURIComponent (base props +:+ "/api/upload-large")
                  ∨ rq_url rq = "/proxy?url=" +:+
                                encodeURIComponent (base props +:+ "/api/analyze"))
               ∧ rq_headers rq !! "Authorization"
                 = (if truthy_str (token props)
                    then Some ("Bearer " +:+ default "" (token props)) else None)))
         (sent (startSimpleMultipart props f) st).
Proof.
  eapply Forall_impl;
    [apply sends_only_sent, startSimpleMultipart_calls |].
  assert (Hauth : default ∅ (authHeaders props) !! "Authorization"
                  = (if truthy_str (token props)
                     then Some ("Bearer " +:+ default "" (token props)) else None)).
  { unfold authHeaders. destruct (token props) as [t |]; [| done].
    destruct (truthy_str (Some t)); [| done]. apply lookup_singleton_eq. }
  intros rq [[body ->] | [[id ->] | (url & lo & hi & ->)]].
  - right. unfold post_upload_large. cbn [rq_method rq_credentials rq_url rq_headers].
    rewrite proxied_plain. split_and!; [done | done | by left | done].
  - right. unfold analyze_request. cbn [rq_method rq_credentials rq_url rq_headers].
    rewrite proxied_plain. split_and!; [done | done | by right |].
    by rewrite lookup_insert_ne.
  - left. split_and!; [done | done | done | by eexists _, _].
Qed.

Lemma part_count_bounds f :
  0 ≤ f_size f →
  (part_count f - 1) * CHUNK_SIZE < f_size f ≤ part_count f * CHUNK_SIZE
  ∨ (f_size f = 0 ∧ part_count f = 0).
Proof.
  intros Hsize. unfold part_count, ceil_div.
  change CHUNK_SIZE with 5242880.
  pose proof (Z.div_mod (- f_size f) 5242880 ltac:(lia)) as Hdiv.
  pose proof (Z.mod_pos_bound (- f_size f) 5242880 ltac:(lia)) as Hmod.
  lia.
Qed.

(** X16. The slices uploaded tile the file: for a file of non-negative
    size the part count is 0 only for the empty file, and slice [i] of
    the [n] slices starts at [i * 5MiB], is not empty, is at most 5 MiB
    long and ends where slice [i + 1] starts, the last one ending at the
    end of the file. *)
Theorem chunks_tile_the_file (f : File) :
  0 ≤ f_size f →
  let n := part_count f in
  0 ≤ n
  ∧ (n = 0 ↔ f_size f = 0)
  ∧ ∀ i, 0 ≤ i < n →
      ∃ lo hi, chunk_of f i = FileSlice lo hi
               ∧ lo = i * (5 * 1024 * 1024)
               ∧ lo < hi ≤ lo + 5 * 1024 * 1024
               ∧ (i + 1 < n → hi = (i + 1) * (5 * 1024 * 1024))
               ∧ (i + 1 = n → hi = f_size f).
Proof.
  intros Hsize n. subst n.
  pose proof (part_count_bounds f Hsize) as Hb.
  change CHUNK_SIZE with 5242880 in Hb. change (5 * 1024 * 1024) with 5242880.
  split; [lia |]. split; [lia |].
  intros i Hi. unfold chunk_of, slice. change CHUNK_SIZE with 5242880.
  do 2 eexists. split; [reflexivity |]. lia.
Qed.

(** X17. How the upload of part [i] ends, given the storage's answer: a
    failure status throws [Chunk i+1 failed]; a success records part
    number [i + 1] with the [ETag] header of the answer, or, when that
    header is missing or empty, with the quoted placeholder
    [etag-(i+1)-(time)]. *)
Theorem part_upload_outcome (parts : Z) (f : File) (urlsData x : JsVal) (i : Z)
    (st : Run World) (res : Response) (w' : World) :
  get_prop urlsData "urls" = Some x →
  x ≠ JNull →
  net_fetch (put_request (String_of (index x i)) (chunk_of f i)) (world st)
  = (Resolved res, w') →
  let out := (put_part i parts f urlsData st).1 in
  (rs_ok res = false →
     out = Throw (new_Error ("Chunk " +:+ pretty (i + 1) +:+ " failed")))
  ∧ (rs_ok res = true →
       ∀ etag, headers_get "ETag" (rs_headers res) = Some etag → etag ≠ "" →
         out = Ok {| ETag := etag; PartNumber := i + 1 |})
  ∧ (rs_ok res = true →
       truthy_str (headers_get "ETag" (rs_headers res)) = false →
       out = Ok {| ETag := dquote +:+ "etag-" +:+ pretty (i + 1) +:+ "-"
                           +:+ pretty (date_now w') +:+ dquote;
                   PartNumber := i + 1 |}).
Proof.
  intros Hurls Hx Hnet out. subst out.
  remember (put_part i parts f urlsData st) as run eqn:Hrun.
  unfold put_part in Hrun. rewrite Hurls in Hrun. unfold member_at in Hrun.
  assert (Hfirst : ∀ k : JsOpt → M World PartResult,
            bind (match Some x with
                  | None | Some JNull => throw TypeError_nullish
                  | Some y => ret (index y i)
                  end) k st = k (index x i) st).
  { intros k. by destruct x. }
  rewrite Hfirst in Hrun. unfold bind at 1, pushLog at 1 in Hrun. cbn [fst snd] in Hrun.
  unfold bind at 1, fetch at 1 in Hrun. cbn [world] in Hrun. rewrite Hnet in Hrun.
  cbn [fst snd] in Hrun.
  unfold bind at 1, pushLog at 1 in Hrun. cbn [fst snd] in Hrun.
  split; [| split].
  - intros Hok. rewrite Hok in Hrun. by subst run.
  - intros Hok etag Hetag Hne. rewrite Hok, Hetag in Hrun. cbn [negb] in Hrun.
    rewrite (truthy_str_nonempty _ Hne) in Hrun. by subst run.
  - intros Hok Hnone. rewrite Hok, Hnone in Hrun. by subst run.
Qed.


Lemma assoc_set_field_ne k k' v fields :
  k ≠ k' → assoc k (set_field k' v fields) = assoc k fields.
Proof.
  intros Hne. induction fields as [| [k0 v0] fields IH]; cbn.
  - by rewrite (proj2 (String.eqb_neq k k')).
  - destruct (String.eqb_spec k' k0) as [<- | Hk0]; cbn.
    + by rewrite (proj2 (String.eqb_neq k k')).
    + destruct (String.eqb k k0); [done | exact IH].
Qed.

Lemma get_prop_set_prop_ne o k k' v :
  k ≠ k' → get_prop (set_prop o k' v) k = get_prop o k.
Proof. intros Hne. destruct o; try done. by apply assoc_set_field_ne. Qed.

Lemma phase_complete_success f uploadId key ups (st : Run World) v :
  (phase_complete props f uploadId key ups st).1 = Ok v →
  truthy_opt (get_prop v "success") = true.
Proof.
  unfold phase_complete. unfold bind at 1, pushLog at 1. cbn [fst snd].
  unfold bind at 1, fetch at 1. cbn [world].
  destruct (net_fetch _ _) as [[e | res] w']; [done |]. cbn [fst snd].
  unfold bind at 1, pushLog at 1. cbn [fst snd].
  set (data := parse_or_raw res).
  unfold bind at 1.
  destruct (rs_ok res); cbn [negb].
  - unfold bind at 1, member. destruct data eqn:Hd; try done;
      unfold ret at 1; cbn [get_prop];
      try (unfold bind, throw; by cbn).
    destruct (truthy_opt (assoc "success" fields)) eqn:Hs; cbn [negb].
    + unfold ret. by intros [= <-].
    + unfold bind, throw, ret. by cbn.
  - unfold ret at 1, bind at 1, member. by destruct data.
Qed.

Lemma phase_fallback_success completeData (st : Run World) v :
  (phase_fallback props completeData st).1 = Ok v →
  get_prop v "success" = get_prop completeData "success".
Proof.
  unfold phase_fallback. destruct (needs_fallback completeData); [| by intros [= <-]].
  unfold try_catch. unfold bind at 1, pushLog at 1. cbn [fst snd].
  unfold bind at 1, fetch at 1. cbn [world].
  destruct (net_fetch _ _) as [[e | res] w']; cbn [fst snd].
  { unfold bind, pushLog, ret. cbn. by intros [= <-]. }
  unfold bind at 1, pushLog at 1. cbn [fst snd].
  destruct (rs_ok res); [| unfold ret; cbn; by intros [= <-]].
  destruct (truthy_opt _); unfold ret; cbn [fst]; intros [= <-]; [| done].
  by rewrite !get_prop_set_prop_ne.
Qed.

Lemma startSimpleMultipart_success f (st : Run World) v :
  (startSimpleMultipart props f st).1 = Ok v →
  ∃ fields, v = JObj fields ∧ truthy_opt (assoc "success" fields) = true.
Proof.
  unfold startSimpleMultipart. unfold bind at 1.
  destruct (phase_start props f st) as [[[uploadId key] | e] st1]; [| done].
  unfold bind at 1.
  destruct (phase_get_urls props uploadId key (part_count f) st1)
    as [[urlsData | e] st2]; [| done].
  unfold bind at 1.
  destruct (phase_put_parts f (part_count f) urlsData st2) as [[ups | e] st3]; [| done].
  unfold bind at 1.
  pose proof (phase_complete_success f uploadId key ups st3) as Hcomplete.
  destruct (phase_complete props f uploadId key ups st3) as [[cd | e] st4]; [| done].
  intros Hv. specialize (Hcomplete cd eq_refl).
  rewrite <- (phase_fallback_success cd st4 v Hv) in Hcomplete.
  destruct v as [| | | | | fields]; try discriminate Hcomplete. by exists fields.
Qed.

(** X19. Whatever a run returns is an object with a truthy [success]: it
    is the completion body, with at most [analysisStarted], [analyses] and
    [message] overwritten by the fallback. *)
Theorem run_returns_success (f : File) (st : Run World) (v : JsVal) :
  (startSimpleMultipart props f st).1 = Ok v →
  v ≠ JNull ∧ truthy_opt (get_prop v "success") = true.
Proof.
  intros Hv. destruct (startSimpleMultipart_success f st v Hv) as (fields & -> & Hs).
  split; [discriminate | exact Hs].
Qed.

(** X20. No phase is repeated: a run makes at most [n + 4] calls, [n]
    being the part count. *)
Theorem run_calls_bounded (f : File) (st : Run World) :
  (length (sent (startSimpleMultipart props f) st) ≤ Z.to_nat (part_count f) + 4)%nat.
Proof.
  assert (Htrace : ∃ l, trace (startSimpleMultipart props f st).2 = (trace st ++ l)%list
                        ∧ (length l ≤ Z.to_nat (part_count f) + 4)%nat).
  { unfold startSimpleMultipart. unfold bind at 1.
    pose proof (phase_start_trace props f st) as H1.
    destruct (phase_start props f st) as [[[uploadId key] | e] st1]; cbn [snd] in H1.
    2: { exists [post_upload_large props (start_upload_body f)]. split; [exact H1 | cbn; lia]. }
    unfold bind at 1.
    pose proof (phase_get_urls_trace props uploadId key (part_count f) st1) as H2.
    destruct (phase_get_urls props uploadId key (part_count f) st1)
      as [[urlsData | e] st2]; cbn [snd] in H2.
    2: { eexists. split; [cbn [snd]; rewrite H2, H1, <- app_assoc; reflexivity | cbn; lia]. }
    unfold bind at 1, phase_put_parts.
    destruct (put_parts_spec (part_count f) f urlsData (Z.to_nat (part_count f)) 0 [] st2)
      as (puts & H3 & Hlen & _).
    cbn zeta in H3.
    destruct (put_parts _ 0 (part_count f) f urlsData [] st2) as [[ups | e] st3];
      cbn [snd] in H3.
    2: { eexists. split; [cbn [snd]; rewrite H3, H2, H1, <- !app_assoc; reflexivity |].
         rewrite !length_app. cbn. lia. }
    unfold bind at 1.
    pose proof (phase_complete_trace props f uploadId key ups st3) as H4.
    destruct (phase_complete props f uploadId key ups st3) as [[cd | e] st4];
      cbn [snd] in H4.
    2: { eexists. split; [cbn [snd]; rewrite H4, H3, H2, H1, <- !app_assoc; reflexivity |].
         rewrite !length_app. cbn. lia. }
    pose proof (phase_fallback_trace props cd st4) as H5.
    eexists. split; [cbn [snd]; rewrite H5, H4, H3, H2, H1, <- !app_assoc; reflexivity |].
    rewrite !length_app. destruct (needs_fallback cd); cbn; lia. }
  destruct Htrace as (l & Htrace & Hlen). by rewrite (sent_app _ _ _ Htrace).
Qed.

Lemma capped_ret {A} (a : A) : keeps_log_capped (ret a : M World A).
Proof. by apply capped_silent. Qed.

Lemma capped_throw {A} e : keeps_log_capped (throw e : M World A).
Proof. by apply capped_silent. Qed.

Lemma capped_now : keeps_log_capped (now : M World Z).
Proof. by apply capped_silent. Qed.

Lemma capped_member data k : keeps_log_capped (member data k : M World JsOpt).
Proof. unfold member. destruct data; by apply capped_silent. Qed.

Lemma capped_member_at data i : keeps_log_capped (member_at data i : M World JsOpt).
Proof. unfold member_at. destruct data as [[] |]; by apply capped_silent. Qed.

Ltac capped :=
  repeat first
    [ apply capped_ret | apply capped_throw | apply capped_pushLog
    | apply capped_now | apply capped_member | apply capped_member_at
    | apply capped_fetch
    | apply capped_bind; [| intros ?]
    | apply capped_try_catch; [| intros ?]
    | case_match ].

Lemma capped_put_parts parts f urlsData :
  ∀ todo i ups, keeps_log_capped (put_parts todo i parts f urlsData ups : M World _).
Proof.
  induction todo as [| todo IH]; intros i ups; cbn [put_parts].
  - apply capped_ret.
  - apply capped_bind; [| intros part; apply IH].
    unfold put_part. capped.
Qed.

(** X21. The log never grows past 300 lines: a run started with at most
    300 lines logged ends with at most 300, however many parts it
    uploads and wherever it stops. *)
Theorem log_stays_capped (f : File) (st : Run World) :
  (length (logs st) ≤ 300)%nat →
  (length (logs (startSimpleMultipart props f st).2) ≤ 300)%nat.
Proof.
  revert st. change (keeps_log_capped (startSimpleMultipart props f)).
  unfold startSimpleMultipart.
  apply capped_bind; [unfold phase_start; capped |]. intros [uploadId key].
  apply capped_bind; [unfold phase_get_urls; capped |]. intros urlsData.
  apply capped_bind; [apply capped_put_parts |]. intros ups.
  apply capped_bind; [unfold phase_complete; capped |]. intros completeData.
  unfold phase_fallback. capped.
Qed.

End UploadMore.

(** ** The form's handlers *)

Section FormFacts.
Import Upload Form Observe.
Context {World : Type} `{!Network World} `{!UrlApi}.
Context (props : UploadFormProps).

(** X22. The form only ever holds a file that passed its check: choosing
    a file keeps this true, a rejected choice clears the selection and
    shows the reason, and choosing nothing changes nothing. *)
Theorem selected_file_is_checked (picked : option File) (ui : FormState) :
  (∀ f, file ui = Some f → validateFile f = None) →
  (∀ f, file (handleFileChange picked ui) = Some f → validateFile f = None)
  ∧ (∀ f err, picked = Some f → validateFile f = Some err →
       file (handleFileChange picked ui) = None
       ∧ error (handleFileChange picked ui) = Some err)
  ∧ (∀ f, picked = Some f → validateFile f = None →
       file (handleFileChange picked ui) = Some f
       ∧ error (handleFileChange picked ui) = None)
  ∧ (picked = None → handleFileChange picked ui = ui).
Proof.
  intros Hinv.
  assert (Hmsg : ∀ f err, validateFile f = Some err → truthy_str (Some err) = true).
  { intros f err. unfold validateFile. repeat case_match; by intros [= <-]. }
  split_and!.
  - intros f. unfold handleFileChange. destruct picked as [g |]; [| apply Hinv].
    destruct (validateFile g) as [err |] eqn:Hg.
    + by rewrite (Hmsg g err Hg).
    + cbn. by intros [= <-].
  - intros f err -> Hf. unfold handleFileChange. rewrite Hf.
    by rewrite (Hmsg f err Hf).
  - intros f -> Hf. unfold handleFileChange. by rewrite Hf.
  - by intros ->.
Qed.


End FormFacts.

(** ** Login *)

Section LoginFacts.
Import App Observe.
Context {World : Type} `{!Network World} `{!ResponseKind}.

Lemma prefix_app (s t : string) : String.prefix s (s +:+ t) = true.
Proof.
  induction s as [| a s IH]; [by destruct t |].
  change (String a s +:+ t) with (String a (s +:+ t)). cbn.
  destruct (Ascii.ascii_dec a a); [exact IH | done].
Qed.

(** X24. [handleLogin] never throws and makes exactly one call, to the
    login endpoint through the proxy; it leaves [loading] off and the
    domain as it was; and either it reports success and marks the
    session authenticated, or it reports [Login error: ...] and leaves
    the authentication flag and the token untouched. *)
Theorem login_always_settles (email password : string) (app : AppState)
    (st : Run World) :
  ∃ app' st',
    handleLogin email password app st = (Ok app', st')
    ∧ trace st' = (trace st ++ [login_request (domain app) email password])%list
    ∧ loading app' = false
    ∧ domain app' = domain app
    ∧ ((statusMessage app' = "Login successful. You can now upload a file."
        ∧ isAuthenticated app' = true)
       ∨ (String.prefix "Login error: " (statusMessage app') = true
          ∧ isAuthenticated app' = isAuthenticated app
          ∧ token app' = token app)).
Proof.
  unfold handleLogin, try_catch. unfold bind at 1, fetch at 1.
  assert (Hfail : ∀ e (s : Run World),
            ∃ app',
              ret {| domain := domain app; isAuthenticated := isAuthenticated app;
                     loading := false; token := token app;
                     statusMessage :=
                       "Login error: " +:+
                       (if negb (String.eqb (err_message e) "") then err_message e
                        else "Unknown error") +:+
                       (if includes "redirect"
                             (if negb (String.eqb (err_message e) "") then err_message e
                              else "Unknown error")
                           || includes "CORS"
                                (if negb (String.eqb (err_message e) "") then err_message e
                                 else "Unknown error")
                           || includes "Failed to fetch"
                                (if negb (String.eqb (err_message e) "") then err_message e
                                 else "Unknown error")
                        then cors_hint else "") |} s = (Ok app', s)
              ∧ loading app' = false ∧ domain app' = domain app
              ∧ String.prefix "Login error: " (statusMessage app') = true
              ∧ isAuthenticated app' = isAuthenticated app ∧ token app' = token app).
  { intros e s. eexists. split; [reflexivity |]. cbn [loading domain statusMessage
      isAuthenticated token]. split_and!; try done. apply prefix_app. }
  destruct (net_fetch _ (world st)) as [[e | res] w']; cbn [fst snd].
  { destruct (Hfail e {| world := w';
                         trace := (trace st ++ [login_request (domain app) email password])%list;
                         logs := logs st |}) as (app' & Hrun & ? & ? & ? & ? & ?).
    cbn zeta in Hrun. exists app'. eexists. split; [exact Hrun |]. by split_and!; [| | | right]. }
  set (st1 := {| world := w';
                 trace := (trace st ++ [login_request (domain app) email password])%list;
                 logs := logs st |}).
  assert (Hthrow : ∀ e, ∃ app' st',
            (let '(o, s) := (throw e : M World AppState) st1 in
             match o with
             | Ok a => (Ok a, s)
             | Throw err =>
                 ret {| domain := domain app; isAuthenticated := isAuthenticated app;
                        loading := false; token := token app;
                        statusMessage :=
                          "Login error: " +:+
                          (if negb (String.eqb (err_message err) "") then err_message err
                           else "Unknown error") +:+
                          (if includes "redirect"
                                (if negb (String.eqb (err_message err) "")
                                 then err_message err else "Unknown error")
                              || includes "CORS"
                                   (if negb (String.eqb (err_message err) "")
                                    then err_message err else "Unknown error")
                              || includes "Failed to fetch"
                                   (if negb (String.eqb (err_message err) "")
                                    then err_message err else "Unknown error")
                           then cors_hint else "") |} s
             end) = (Ok app', st')
            ∧ trace st' = (trace st ++ [login_request (domain app) email password])%list
            ∧ loading app' = false ∧ domain app' = domain app
            ∧ ((statusMessage app' = "Login successful. You can now upload a file."
                ∧ isAuthenticated app' = true)
               ∨ (String.prefix "Login error: " (statusMessage app') = true
                  ∧ isAuthenticated app' = isAuthenticated app
                  ∧ token app' = token app))).
  { intros e. destruct (Hfail e st1) as (app' & Hrun & ? & ? & ? & ? & ?).
    exists app', st1. split; [exact Hrun |]. by split_and!; [| | | right]. }
  destruct (_ || _); [apply Hthrow |].
  unfold bind at 1, try_catch.
  destruct (rs_json res) as [data |]; [| apply Hthrow].
  unfold ret at 1. cbn [fst snd].
  unfold bind at 1.
  assert (Hmember : ∀ k, Upload.member data k st1 = (Ok (get_prop data k), st1)
                         ∨ Upload.member data k st1 = (Throw TypeError_nullish, st1)).
  { intros k. destruct data; by (left + right). }
  destruct (rs_ok res); cbn [negb].
  - unfold bind at 1.
    destruct (Hmember "success") as [-> | ->]; [| apply Hthrow].
    unfold ret at 1. destruct (truthy_opt (get_prop data "success")); cbn [negb].
    + unfold bind at 1.
      destruct (Hmember "token") as [-> | ->]; [| apply Hthrow].
      do 2 eexists. split; [reflexivity |]. cbn. by split_and!; [| | | left].
    + unfold bind at 1.
      destruct (Hmember "message") as [-> | ->]; apply Hthrow.
  - unfold ret at 1. unfold bind at 1.
    destruct (Hmember "message") as [-> | ->]; apply Hthrow.
Qed.

(** X25. A success answer (2xx, not an opaque redirect, JSON body with a
    truthy [success]) authenticates the session whether or not it brings
    a token: the token becomes the body's [token] if that is truthy and
    stays what it was otherwise. *)
Theorem login_success_token (email password : string) (app : AppState)
    (st : Run World) (res : Response) (w' : World) (data : JsVal) :
  net_fetch (login_request (domain app) email password) (world st) = (Resolved res, w') →
  response_type res ≠ "opaqueredirect" →
  rs_ok res = true →
  rs_json res = Some data →
  truthy_opt (get_prop data "success") = true →
  (handleLogin email password app st).1
  = Ok {| domain := domain app; isAuthenticated := true; loading := false;
          token := (if truthy_opt (get_prop data "token") then get_prop data "token"
                    else token app);
          statusMessage := "Login successful. You can now upload a file." |}.
Proof.
  intros Hnet Hkind Hok Hjson Hsuccess.
  assert (Hstatus : (300 <=? rs_status res) && (rs_status res <? 400) = false).
  { unfold rs_ok in Hok. apply andb_true_iff in Hok as [_ ?%Z.leb_le].
    apply andb_false_iff. left. apply Z.leb_gt. lia. }
  assert (Hmember : ∀ k (s : Run World), Upload.member data k s = (Ok (get_prop data k), s)).
  { intros k s. destruct data; try done. }
  unfold handleLogin, try_catch. unfold bind at 1, fetch at 1. rewrite Hnet.
  cbn [fst snd]. rewrite (proj2 (String.eqb_neq _ _) Hkind), Hstatus. cbn [orb].
  unfold bind at 1, try_catch. rewrite Hjson. unfold ret at 1. cbn [fst snd].
  unfold bind at 1. rewrite Hok. cbn [negb].
  unfold bind at 1. rewrite Hmember. unfold ret at 1. rewrite Hsuccess. cbn [negb].
  unfold bind at 1. by rewrite Hmember.
Qed.

(** X26. What the user is told when the login does not get through: a
    redirect (opaque, or any 3xx status) gives the redirect message
    followed by the CORS hint; a body that is not JSON gives [Failed to
    read response from login endpoint], without hint; a rejected call
    whose message is [Failed to fetch] gives that message and the hint. *)
Theorem login_error_messages (email password : string) (app : AppState)
    (st : Run World) :
  let rq := login_request (domain app) email password in
  let told (o : Outcome AppState) : option string :=
    match o with Ok app' => Some (statusMessage app') | Throw _ => None end in
  (∀ res w', net_fetch rq (world st) = (Resolved res, w') →
     response_type res = "opaqueredirect" ∨ 300 ≤ rs_status res < 400 →
     told (handleLogin email password app st).1
     = Some ("Login error: Received redirect during login (possible middleware or HTTPS redirect). This breaks CORS preflight."
             +:+ cors_hint))
  ∧ (∀ res w', net_fetch rq (world st) = (Resolved res, w') →
       response_type res ≠ "opaqueredirect" → ¬ 300 ≤ rs_status res < 400 →
       rs_json res = None →
       told (handleLogin email password app st).1
       = Some "Login error: Failed to read response from login endpoint")
  ∧ (∀ e w', net_fetch rq (world st) = (Rejected e, w') →
       err_message e = "Failed to fetch" →
       told (handleLogin email password app st).1
       = Some ("Login error: Failed to fetch" +:+ cors_hint)).
Proof.
  intros rq told. subst rq. split_and!.
  - intros res w' Hnet Hredirect.
    assert (Hcond : String.eqb (response_type res) "opaqueredirect"
                    || (300 <=? rs_status res) && (rs_status res <? 400) = true).
    { destruct Hredirect as [-> | [?%Z.leb_le ?%Z.ltb_lt]]; [done |].
      apply orb_true_iff. right. by apply andb_true_iff. }
    unfold handleLogin, try_catch. unfold bind at 1, fetch at 1. rewrite Hnet.
    cbn [fst snd]. by rewrite Hcond.
  - intros res w' Hnet Hkind Hstatus Hjson.
    assert (Hcond : String.eqb (response_type res) "opaqueredirect"
                    || (300 <=? rs_status res) && (rs_status res <? 400) = false).
    { rewrite (proj2 (String.eqb_neq _ _) Hkind). cbn [orb].
      apply andb_false_iff.
      destruct (Z.leb_spec 300 (rs_status res)); [right; apply Z.ltb_ge; lia | by left]. }
    unfold handleLogin, try_catch. unfold bind at 1, fetch at 1. rewrite Hnet.
    cbn [fst snd]. rewrite Hcond.
    unfold bind at 1, try_catch. by rewrite Hjson.
  - intros e w' Hnet Hmsg.
    unfold handleLogin, try_catch. unfold bind at 1, fetch at 1. rewrite Hnet.
    cbn [fst snd]. by rewrite Hmsg.
Qed.

End LoginFacts.

(** ** The further properties on examples *)

Section MoreExamples.
Import Client Upload Proxy Form App Observe Scenario.

Lemma postJson_rejected_witness :
  (postJson signed_in "/api/analyze" JNull None (start [])).1 = Throw failed_to_fetch.
Proof.
  assert (Hnet : ∀ redirect,
            net_fetch (postJson_request redirect signed_in "/api/analyze" JNull None)
              (world (start [])) = (Rejected failed_to_fetch, [])) by reflexivity.
  exact (proj1 (postJson_rejected signed_in "/api/analyze" JNull None (start [])
                  failed_to_fetch [] Hnet)).
Defined.

Lemma bad_target_rejected_witness :
  middleware no_target_get (start []) = (Ok (respond 400 "Missing url param"), start []).
Proof.
  assert (H1 : new_URL (default "" (in_url no_target_get)) (Some "http://localhost")
               = new_URL "/" (Some "http://localhost")) by reflexivity.
  assert (H2 : (x_target_base no_target_get (start [])).1 = Ok None) by reflexivity.
  apply (proj1 (bad_target_rejected no_target_get (start []) _ None H1 H2)).
  reflexivity.
Defined.

(** White space is more than the ASCII blanks: a base made of a no-break
    space and a tab pins nothing, and the request is forwarded. *)
Example blank_base_pins_nothing :
  trim (bytes [194; 160; 9]%nat) = ""
  ∧ trim (bytes [226; 128; 175]%nat +:+ "https://a.example"
          +:+ bytes [10; 239; 187; 191]%nat)
    = "https://a.example"
  ∧ (checks blank_pinned_post (start [])).1 = Ok (inr upload_target).
Proof. split_and!; by vm_compute. Qed.

(** Of two cookies set upstream the caller gets the second only; other
    repeated headers come back combined. *)
Example last_cookie_only :
  sr_headers (relay two_cookies) !! "set-cookie" = Some "b=2"
  ∧ sr_headers (relay two_cookies) !! "vary" = Some "Origin, Accept".
Proof. split; by vm_compute. Qed.

Lemma pinned_origin_enforced_witness :
  middleware pinned_post (start [Resolved arrived])
  = (Ok (respond 403 "Target not allowed for provided X-Target-Base"),
     start [Resolved arrived]).
Proof.
  set (st := start [Resolved arrived]).
  assert (H1 : new_URL (default "" (in_url pinned_post)) (Some "http://localhost")
               = new_URL "/?url=https://api.example/api/upload-large"
                   (Some "http://localhost")) by reflexivity.
  assert (H2 : (x_target_base pinned_post st).1 = Ok (Some "https://other.example"))
    by (by vm_compute).
  assert (H3 : "https://other.example" ≠ "") by discriminate.
  assert (H4 : searchParams_get "url"
                 {| u_href := "/?url=https://api.example/api/upload-large";
                    u_protocol := "https:";
                    u_host := "/?url=https://api.example/api/upload-large";
                    u_origin := "/?url=https://api.example/api/upload-large";
                    u_pathname := "/";
                    u_searchParams := [("url", upload_target)] |}
               = Some upload_target) by reflexivity.
  assert (H5 : is_http upload_target = true) by reflexivity.
  apply (proj1 (pinned_origin_enforced pinned_post st _ upload_target
                  "https://other.example" H1 H2 H3 H4 H5)
           _ _ eq_refl eq_refl).
  discriminate.
Defined.

Lemma redirects_followed_witness :
  ∃ st', middleware upload_post
           (start [Resolved (moved 307); Resolved (moved 307); Resolved arrived])
         = (Ok (relay arrived), st').
Proof.
  set (st := start [Resolved (moved 307); Resolved (moved 307); Resolved arrived]).
  assert (H1 : (checks upload_post st).1 = Ok (inr upload_target)) by (by vm_compute).
  assert (H2 : in_error upload_post = None) by reflexivity.
  assert (H3 : (2 ≤ 5)%nat) by lia.
  set (cur := redirected 307 "https://api.example/login"
                (redirected 307 "https://api.example/login"
                   (first_request upload_post upload_target (buffered_body upload_post)))).
  assert (H4 : after_redirects 2
                 (first_request upload_post upload_target (buffered_body upload_post))
                 (world st) = Some (cur, [Resolved arrived])) by (by vm_compute).
  assert (H5 : net_fetch (request_of cur) [Resolved arrived] = (Resolved arrived, []))
    by reflexivity.
  assert (H6 : is_redirect arrived = false) by reflexivity.
  destruct (redirects_followed upload_post upload_target st 2 cur _ _ arrived
              H1 H2 H3 H4 H5 H6) as (st' & Hrun & _).
  by exists st'.
Defined.

Lemma upstream_failure_is_502_witness :
  ∃ res st', middleware upload_post (start []) = (Ok res, st')
             ∧ statusCode res = 502
             ∧ sr_body res = Some "Proxy error: Failed to fetch".
Proof.
  assert (H1 : (checks upload_post (start [])).1 = Ok (inr upload_target))
    by (by vm_compute).
  assert (H2 : in_error upload_post = None) by reflexivity.
  assert (H3 : net_fetch (request_of (first_request upload_post upload_target
                                        (buffered_body upload_post)))
                 (world (start [])) = (Rejected failed_to_fetch, [])) by reflexivity.
  destruct (proj1 (upstream_failure_is_502 upload_post upload_target (start []) H1 H2)
              failed_to_fetch [] H3) as (res & st' & Hrun & Hres & _).
  exists res, st'. split; [exact Hrun |]. by rewrite Hres.
Defined.

Lemma unreadable_body_is_502_witness :
  ∃ st', middleware broken_post (start [Resolved arrived])
         = (Ok {| statusCode := 502;
                  sr_headers := {[ "content-type" := "text/plain; charset=utf-8" ]};
                  sr_body := Some "Proxy error: aborted" |}, st').
Proof.
  assert (H1 : (checks broken_post (start [Resolved arrived])).1 = Ok (inr upload_target))
    by (by vm_compute).
  assert (H2 : method_of broken_post ∉ ["GET"; "HEAD"])
    by (apply (bool_decide_unpack (method_of broken_post ∉ ["GET"; "HEAD"]));
        vm_compute; exact I).
  assert (H3 : in_error broken_post = Some aborted) by reflexivity.
  destruct (unreadable_body_is_502 broken_post upload_target (start [Resolved arrived])
              aborted H1 H2 H3) as (st' & Hrun & _).
  by exists st'.
Defined.

Lemma chunks_tile_the_file_witness :
  ∃ lo hi, chunk_of two_part_file 1 = FileSlice lo hi ∧ hi = f_size two_part_file.
Proof.
  assert (H0 : 0 ≤ f_size two_part_file) by (by vm_compute).
  destruct (chunks_tile_the_file two_part_file H0) as (_ & _ & Htile).
  destruct (Htile 1) as (lo & hi & Hc & _ & _ & _ & Hlast); [by vm_compute |].
  exists lo, hi. split; [exact Hc |]. apply Hlast. reflexivity.
Defined.

Lemma part_upload_outcome_witness :
  (put_part 1 2 two_part_file two_urls (start [text_response 200 [] ""])).1
  = Ok {| ETag := dquote +:+ "etag-2-1700000000000" +:+ dquote; PartNumber := 2 |}.
Proof.
  set (st := start [text_response 200 [] ""]).
  assert (H1 : get_prop two_urls "urls"
               = Some (JArr [JStr "https://storage.example/p1";
                             JStr "https://storage.example/p2"])) by reflexivity.
  assert (H2 : JArr [JStr "https://storage.example/p1";
                     JStr "https://storage.example/p2"] ≠ JNull) by discriminate.
  assert (H3 : net_fetch
                 (put_request
                    (String_of (index (JArr [JStr "https://storage.example/p1";
                                             JStr "https://storage.example/p2"]) 1))
                    (chunk_of two_part_file 1)) (world st)
               = (text_response 200 [] "", [])) by reflexivity.
  destruct (part_upload_outcome 2 two_part_file two_urls _ 1 st _ [] H1 H2 H3)
    as (_ & _ & Hplaceholder).
  rewrite Hplaceholder; [by vm_compute | reflexivity | reflexivity].
Defined.


Lemma run_returns_success_witness :
  truthy_opt (get_prop (completed true) "success") = true.
Proof.
  assert (H1 : (startSimpleMultipart demo one_part_file (start surplus_script)).1
               = Ok (completed true)) by (by vm_compute).
  exact (proj2 (run_returns_success demo one_part_file (start surplus_script)
                  (completed true) H1)).
Defined.

Lemma log_stays_capped_witness :
  (length (logs (startSimpleMultipart demo two_part_file (start two_part_script)).2)
   ≤ 300)%nat.
Proof.
  apply (log_stays_capped demo two_part_file (start two_part_script)). cbn. lia.
Defined.

Lemma selected_file_is_checked_witness :
  file (handleFileChange (Some oversize_file) Form.initial) = None
  ∧ error (handleFileChange (Some oversize_file) Form.initial)
    = Some "File exceeds 5MB limit".
Proof.
  assert (H0 : ∀ f, file Form.initial = Some f → validateFile f = None)
    by (intros f; discriminate).
  destruct (selected_file_is_checked (Some oversize_file) Form.initial H0)
    as (_ & Hbad & _).
  apply (Hbad oversize_file); reflexivity.
Defined.

Lemma login_success_token_witness :
  (handleLogin "a@b.c" "pw" signed_out
     (start [json_response 200 logged_in_without_token])).1
  = Ok {| App.domain := "https://api.example/"; isAuthenticated := true;
          loading := false; App.token := None;
          statusMessage := "Login successful. You can now upload a file." |}.
Proof.
  set (st := start [json_response 200 logged_in_without_token]).
  assert (H1 : net_fetch (login_request (App.domain signed_out) "a@b.c" "pw") (world st)
               = (json_response 200 logged_in_without_token, [])) by reflexivity.
  assert (H2 : ∀ r, json_response 200 logged_in_without_token = Resolved r →
                    response_type r ≠ "opaqueredirect")
    by (intros r [= <-]; discriminate).
  exact (login_success_token "a@b.c" "pw" signed_out st _ [] logged_in_without_token
           H1 (H2 _ eq_refl) eq_refl eq_refl eq_refl).
Defined.

End MoreExamples.
